(** * wp-calypso: the WPCOM HTTP data-layer utilities and the [Site] model

    Two parts of the client are embedded here.

    - [DataLayer]: the helpers exercised by the data-layer test suite
      ([getData], [getError], [getProgress], [dispatchRequest],
      [isHttpIngress], [isHttpEgress], [processHttpRequest]).  The test
      suite is in the repository sources, [utils.js] itself is not, so the
      helpers are written down from the specification and replayed against
      the tests.
    - [SiteModel]: the [Site] model (debug name [calypso:site]), the
      container with [set], [fetchSettings] and [saveSettings], over a
      small model of JavaScript values ([JS]): primitives, objects held in
      a store and referred to by location, and lodash's [isEqual]. *)

From Stdlib Require Import Ascii String.
From stdpp Require Import gmap strings list fin_maps pretty.


(* ===================================================================== *)
(** ** The data layer *)
(* ===================================================================== *)

Module DataLayer.

Section Envelope.
(** [Store] and [Next] are the redux store and the continuation of the
    middleware chain.  [dispatchRequest] only passes them on, so they are
    kept abstract; [Payload] is whatever the transport attaches. *)
Context {Store Next Payload : Type}.

(** The [meta.dataLayer] record of an action: it holds one or more of a
    response, an error and a progress report. *)
Record Metadata := mkMetadata {
  data : option Payload;
  error : option Payload;
  progress : option Payload;
}.

Record Action := mkAction {
  type : string;
  meta : option Metadata;
}.

(** The data model asks that a metadata record, when present, holds at
    least one of its three fields. *)
Definition holds_one (m : Metadata) : Prop :=
  is_Some (data m) ∨ is_Some (error m) ∨ is_Some (progress m).

Definition well_formed (a : Action) : Prop :=
  ∀ m, meta a = Some m → holds_one m.

(** Modelled from the spec: [getData] of the absent [utils.js]; the
    response carried by the metadata, nothing ([null] in the tests) when
    there is none. *)
Definition getData (a : Action) : option Payload := m ← meta a; data m.

(** Modelled from the spec: [getError] of the absent [utils.js]. *)
Definition getError (a : Action) : option Payload := m ← meta a; error m.

(** Modelled from the spec: [getProgress] of the absent [utils.js]. *)
Definition getProgress (a : Action) : option Payload := m ← meta a; progress m.

(** What a sinon spy remembers: which function was called, with which
    arguments. *)
Inductive Call :=
  | CalledInitiate (store : Store) (action : Action) (next : Next)
  | CalledSuccess (store : Store) (action : Action) (next : Next) (d : Payload)
  | CalledFailure (store : Store) (action : Action) (next : Next) (e : Payload)
  | CalledProgress (store : Store) (action : Action) (next : Next) (p : Payload)
  | CalledIngress (store : Store) (next : Next) (action : Action)
  | CalledEgress (store : Store) (next : Next) (action : Action)
  | CalledNext (next : Next) (action : Action).

Definition is_handler_call (c : Call) : bool :=
  match c with
  | CalledInitiate _ _ _ | CalledSuccess _ _ _ _
  | CalledFailure _ _ _ _ | CalledProgress _ _ _ _ => true
  | _ => false
  end.

Definition is_success_call (c : Call) : bool :=
  match c with CalledSuccess _ _ _ _ => true | _ => false end.

Definition is_ingress_call (c : Call) : bool :=
  match c with CalledIngress _ _ _ => true | _ => false end.

Definition is_egress_call (c : Call) : bool :=
  match c with CalledEgress _ _ _ => true | _ => false end.

Definition is_next_call (c : Call) : bool :=
  match c with CalledNext _ _ => true | _ => false end.
End Envelope.

Arguments Metadata : clear implicits.
Arguments Action : clear implicits.
Arguments Call : clear implicits.

Section Utils.
Context {Store Next Payload : Type}.

(** The [WPCOM_HTTP_REQUEST] constant of [state/action-types], which is
    not among the sources. *)
Variable WPCOM_HTTP_REQUEST : string.

Local Abbreviation Action := (Action Payload).
Local Abbreviation Call := (Call Store Next Payload).

(** Handlers act on some world [W]; the dispatcher and the router do
    nothing to it themselves. *)
Definition Initiator (W : Type) := Store → Action → Next → W → W.
Definition Responder (W : Type) := Store → Action → Next → Payload → W → W.
Definition Processor (W : Type) := Store → Next → Action → W → W.

(** Modelled from the spec: [dispatchRequest] of the absent [utils.js],
    branch by branch as the Request Dispatcher contract lists them.
    The contract names no handler for a metadata record that holds none
    of the three fields (the data model rules such a record out); no
    call is made there. *)
Definition dispatchRequest {W : Type}
    (initiate : Initiator W) (onSuccess onFailure onProgress : Responder W)
    (store : Store) (action : Action) (next : Next) : W → W :=
  match meta action with
  | None => initiate store action next
  | Some m =>
    match error m with
    | Some e => onFailure store action next e
    | None =>
      match progress m with
      | Some p => onProgress store action next p
      | None =>
        match data m with
        | Some d => onSuccess store action next d
        | None => λ w, w
        end
      end
    end
  end.

(** Modelled from the spec: [isHttpIngress] of the absent [utils.js];
    the type tag is the start-request constant. *)
Definition isHttpIngress (a : Action) : bool :=
  bool_decide (type a = WPCOM_HTTP_REQUEST).

(** Modelled from the spec: [isHttpEgress] of the absent [utils.js];
    the metadata holds a response or an error. *)
Definition isHttpEgress (a : Action) : bool :=
  match meta a with
  | Some m => bool_decide (is_Some (data m)) || bool_decide (is_Some (error m))
  | None => false
  end.

(** Modelled from the spec: [processHttpRequest] of the absent
    [utils.js], the curried stage [store => next => action => ...].
    [call] is the application of the chain's continuation. *)
Definition processHttpRequest {W : Type} (call : Next → Action → W → W)
    (handleIngress handleEgress : Processor W)
    (store : Store) (next : Next) (action : Action) : W → W :=
  if isHttpIngress action then handleIngress store next action
  else if isHttpEgress action then handleEgress store next action
  else call next action.

(** *** The spies of the test suite *)

Definition record (c : Call) (log : list Call) : list Call := log ++ [c].

Definition initiator : Initiator (list Call) := λ s a n, record (CalledInitiate s a n).
Definition onSuccess : Responder (list Call) := λ s a n d, record (CalledSuccess s a n d).
Definition onFailure : Responder (list Call) := λ s a n e, record (CalledFailure s a n e).
Definition onProgress : Responder (list Call) := λ s a n p, record (CalledProgress s a n p).
Definition handleIngress : Processor (list Call) := λ s n a, record (CalledIngress s n a).
Definition handleEgress : Processor (list Call) := λ s n a, record (CalledEgress s n a).
Definition next_spy : Next → Action → list Call → list Call := λ n a, record (CalledNext n a).

(** [dispatcher] and [stage] are the two functions the tests build in
    their [beforeEach]. *)
Definition dispatcher : Store → Action → Next → list Call → list Call :=
  dispatchRequest initiator onSuccess onFailure onProgress.

Definition stage : Store → Next → Action → list Call → list Call :=
  processHttpRequest next_spy handleIngress handleEgress.

Definition callCount (p : Call → bool) (log : list Call) : nat :=
  length (filter (λ c, p c = true) log).

(** The stage fed a sequence of actions, one after the other. *)
Definition feed (store : Store) (next : Next) (actions : list Action)
    (log : list Call) : list Call :=
  foldl (λ log a, stage store next a log) log actions.
End Utils.

End DataLayer.

(* ===================================================================== *)
(** ** JavaScript values and objects *)
(* ===================================================================== *)

Module JS.

Definition loc := positive.

(** Primitive values are held directly, objects and arrays by reference.
    Numbers are the integer-valued ones (status codes, timestamps); NaN
    and fractions do not occur in the code under study. *)
Inductive val :=
  | VUndef
  | VNull
  | VBool (b : bool)
  | VNum (n : Z)
  | VStr (s : string)
  | VRef (l : loc).

Arguments VRef l%_positive.

#[global] Instance val_eq_dec : EqDecision val.
Proof. solve_decision. Defined.

#[global] Instance val_inhabited : Inhabited val := populate VUndef.

Inductive tag := Plain | Array.

#[global] Instance tag_eq_dec : EqDecision tag.
Proof. solve_decision. Defined.

(** An object in the store: its own enumerable properties.  An array is
    an object whose properties are its indices; its [length] is not
    enumerable and is not stored. *)
Record cell := mkCell {
  kind : tag;
  props : gmap string val;
}.

Definition empty_cell : cell := mkCell Plain ∅.

Definition nullish (v : val) : bool :=
  match v with VUndef | VNull => true | _ => false end.

Definition is_primitive (v : val) : bool :=
  match v with VRef _ => false | _ => true end.

Definition truthy (v : val) : bool :=
  match v with
  | VUndef | VNull => false
  | VBool b => b
  | VNum n => negb (n =? 0)%Z
  | VStr s => negb (String.eqb s "")
  | VRef _ => true
  end.

(** [a || b] *)
Definition or_else (a b : val) : val := if truthy a then a else b.

(** [typeof v === 'string'] *)
Definition is_string (v : val) : bool :=
  match v with VStr _ => true | _ => false end.

(** [o[k]] on a property bag: [undefined] when [k] is not a property. *)
Definition read (o : gmap string val) (k : string) : val := default VUndef (o !! k).

(** The object a reference stands for.  References are created by
    allocation only, so they are never dangling; a total lookup keeps the
    operations below free of that case. *)
Definition deref (h : gmap loc cell) (l : loc) : cell := default empty_cell (h !! l).

(** The characters of a string primitive, as [for ... in] enumerates
    them: index [i] holds the one-character string at [i]. *)
Fixpoint string_props (i : nat) (s : string) : list (string * val) :=
  match s with
  | EmptyString => []
  | String c s' => (pretty i, VStr (String c EmptyString)) :: string_props (S i) s'
  end.

(** The properties a [for (k in v) if (v.hasOwnProperty(k))] loop visits:
    those of the object behind a reference, the characters of a string,
    none for the other primitives. *)
Definition own_props (h : gmap loc cell) (v : val) : gmap string val :=
  match v with
  | VRef l => props (deref h l)
  | VStr s => list_to_map (string_props 0 s)
  | _ => ∅
  end.

(** [v[k]] where [v] is known not to be [undefined] or [null].  Inherited
    and non-enumerable properties ([length] and the like) are not part of
    the model. *)
Definition prop_of (h : gmap loc cell) (v : val) (k : string) : val :=
  read (own_props h v) k.

(** [v.k]; reading a property of [undefined] or [null] throws. *)
Definition get_prop (h : gmap loc cell) (v : val) (k : string) : option val :=
  if nullish v then None else Some (prop_of h v k).

(** [v[k] = x]; throws on [undefined] and [null], is dropped on the other
    primitives (the module has no strict-mode directive). *)
Definition set_prop (h : gmap loc cell) (v : val) (k : string) (x : val)
    : option (gmap loc cell) :=
  match v with
  | VUndef | VNull => None
  | VRef l => Some (<[l := mkCell (kind (deref h l)) (<[k := x]> (props (deref h l)))]> h)
  | _ => Some h
  end.

Definition alloc (h : gmap loc cell) (c : cell) : loc * gmap loc cell :=
  let l := fresh (dom h) in (l, <[l := c]> h).

Definition array_of (items : list val) : cell :=
  mkCell Array (list_to_map (imap (λ i v, (pretty i, v)) items)).

(** [String.prototype.split] with a one-character separator. *)
Fixpoint split_on (sep : ascii) (s : string) : list string :=
  match s with
  | EmptyString => [EmptyString]
  | String c s' =>
    if Ascii.eqb c sep then EmptyString :: split_on sep s'
    else match split_on sep s' with
         | piece :: rest => String c piece :: rest
         | [] => [String c EmptyString]
         end
  end.

Definition newline : ascii := ascii_of_nat 10.

(** [Array.prototype.join], the inverse of [split_on]. *)
Fixpoint join_with (sep : ascii) (pieces : list string) : string :=
  match pieces with
  | [] => EmptyString
  | [p] => p
  | p :: rest => p +:+ String sep (join_with sep rest)
  end.

Fixpoint contains (c : ascii) (s : string) : bool :=
  match s with
  | EmptyString => false
  | String c' s' => Ascii.eqb c' c || contains c s'
  end.

(** The string a value turns into under [+] with a string. Objects print
    as plain objects do; [Array.prototype.toString] is not modelled. *)
Definition to_string (v : val) : string :=
  match v with
  | VUndef => "undefined"
  | VNull => "null"
  | VBool true => "true"
  | VBool false => "false"
  | VNum n => pretty n
  | VStr s => s
  | VRef _ => "[object Object]"
  end.

(** A left fold whose step may throw. *)
Fixpoint foldM {A B : Type} (f : A → B → option A) (l : list B) (a : A) : option A :=
  match l with
  | [] => Some a
  | b :: l' => a' ← f a b; foldM f l' a'
  end.

(** *** lodash [isEqual]

    Identical values are equal; two distinct references are equal when the
    objects have the same kind and the same keys and the values under each
    key are equal in turn; anything else is unequal.  The comparison stops
    at the first unequal pair.  [depth] is the nesting the call stack
    allows: lodash recurses once per level and the engine throws when the
    stack is exhausted.  (Lodash also answers on cyclic structures, by
    remembering the pairs under comparison; that bookkeeping is left out,
    and a cyclic comparison exhausts [depth] here.) *)
Fixpoint isEqual (depth : nat) (h : gmap loc cell) (a b : val) : option bool :=
  if decide (a = b) then Some true
  else match a, b with
  | VRef la, VRef lb =>
    match depth with
    | 0 => None
    | S d =>
      let ca := deref h la in
      let cb := deref h lb in
      if decide (kind ca = kind cb) then
        if decide (dom (props ca) = dom (props cb)) then
          foldM (λ (acc : bool) (kv : string * val),
                   if acc then isEqual d h kv.2 (read (props cb) kv.1) else Some false)
                (map_to_list (props ca)) true
        else Some false
      else Some false
    end
  | _, _ => Some false
  end.


(** *** Stores without cycles

    [rank] bounds the nesting below each object: whatever an object refers
    to has a smaller rank.  On such a store [isEqual] returns as soon as
    [depth] is above the rank of its first argument. *)
Definition rank_of (rank : loc → nat) (v : val) : nat :=
  match v with VRef l => S (rank l) | _ => 0 end.

Definition ranked (rank : loc → nat) (h : gmap loc cell) : Prop :=
  ∀ l k v, props (deref h l) !! k = Some v → rank_of rank v ≤ rank l.

End JS.

(* ===================================================================== *)
(** ** The Site model *)
(* ===================================================================== *)

Module SiteModel.
Import JS.

(** A call of [notices.error( message, options )]. *)
Record NoticeOptions := mkOptions {
  button : string;
  href : string;
}.

Record Notice := mkNotice {
  message : string;
  options : option NoticeOptions;
}.

(** A call of [wpcom.undocumented().settings]. *)
Inductive Request :=
  | GetSettings (id : val)
  | PostSettings (id : val) (settings : val).

(** Everything the methods of a [Site] touch.  The site's own properties
    are kept apart from the store of the objects they refer to: no
    attribute refers back to the site itself.  Attribute names are taken
    not to collide with the names of the prototype's methods. *)
Record World := mkWorld {
  this : gmap string val;        (* own properties of the site *)
  store : gmap loc cell;         (* the objects the values refer to *)
  changes : nat;                 (* 'change' events emitted so far *)
  maxListeners : option nat;     (* set by setMaxListeners *)
  notices : list Notice;         (* calls of notices.error *)
  requests : list Request;       (* remote calls issued *)
  called_back : list (val * val); (* calls of the callback of saveSettings *)
  clock : Z                      (* what new Date().getTime() reads *)
}.

Definition with_this (o : gmap string val) (w : World) : World :=
  mkWorld o (store w) (changes w) (maxListeners w) (notices w) (requests w) (called_back w) (clock w).

Definition with_store (h : gmap loc cell) (w : World) : World :=
  mkWorld (this w) h (changes w) (maxListeners w) (notices w) (requests w) (called_back w) (clock w).

(** [this.emit( 'change' )]; the listeners are outside the model. *)
Definition emit_change (w : World) : World :=
  mkWorld (this w) (store w) (S (changes w)) (maxListeners w) (notices w) (requests w)
          (called_back w) (clock w).

Definition setMaxListeners (n : nat) (w : World) : World :=
  mkWorld (this w) (store w) (changes w) (Some n) (notices w) (requests w) (called_back w) (clock w).

Definition notices_error (n : Notice) (w : World) : World :=
  mkWorld (this w) (store w) (changes w) (maxListeners w) (notices w ++ [n]) (requests w)
          (called_back w) (clock w).

Definition send (r : Request) (w : World) : World :=
  mkWorld (this w) (store w) (changes w) (maxListeners w) (notices w) (requests w ++ [r])
          (called_back w) (clock w).

Definition call_back (error data : val) (w : World) : World :=
  mkWorld (this w) (store w) (changes w) (maxListeners w) (notices w) (requests w)
          (called_back w ++ [(error, data)]) (clock w).

(** Time passing between two steps of the site. *)
Definition elapse (d : Z) (w : World) : World :=
  mkWorld (this w) (store w) (changes w) (maxListeners w) (notices w) (requests w)
          (called_back w) (clock w + d).

(** The transport putting an object of a response in the store. *)
Definition deliver (l : loc) (c : cell) (w : World) : World :=
  with_store (<[l := c]> (store w)) w.

Arguments deliver l%_positive c w.

Definition new_site (h : gmap loc cell) (t : Z) : World := mkWorld ∅ h 0 None [] [] [] t.

Section Site.
(** [getAttributes] of [./computed-attributes], which is not among the
    sources: from the store and the site's properties, the computed
    attributes to lay over them. *)
Variable getAttributes : gmap loc cell → gmap string val → gmap string val.

(** [i18n.translate]. *)
Variable translate : string → string.

(** The nesting [isEqual] may descend before the call stack is
    exhausted. *)
Variable depth : nat.

(** [k] is not one of the computed attributes. *)
Definition raw (k : string) : Prop := ∀ h o, getAttributes h o !! k = None.

(** [Object.assign( this, getAttributes( this ) )] *)
Definition updateComputedAttributes (w : World) : World :=
  with_this (getAttributes (store w) (this w) ∪ this w) w.

(** [Site.prototype.attributes], the body of the constructor. *)
Definition attributes (attrs : gmap string val) (w : World) : World :=
  updateComputedAttributes (setMaxListeners 40 (with_this (attrs ∪ this w) w)).

(** One turn of the loop of [set]. *)
Definition set_step (h : gmap loc cell) (acc : gmap string val * bool)
    (kv : string * val) : option (gmap string val * bool) :=
  same ← isEqual depth h kv.2 (read acc.1 kv.1);
  if same : bool then Some acc
  else Some ((if decide (kv.2 = VUndef) then delete kv.1 acc.1
              else <[kv.1 := kv.2]> acc.1), true).

(** [Site.prototype.set].  [attributes] is the bag of own properties of
    the argument; [set] reads it and never writes to the store, so the
    bag is the same throughout the loop.  Returns [changed]. *)
Definition set (attributes : gmap string val) (w : World) : option (bool * World) :=
  '(o, changed) ← foldM (set_step (store w)) (map_to_list attributes) (this w, false);
  let w1 := updateComputedAttributes (with_this o w) in
  Some (changed, if changed : bool then emit_change w1 else w1).

Definition settingsErrorHandler (error : val) (w : World) : World :=
  let site_options := read (this w) "options" in
  let adminURL :=
    if truthy site_options then prop_of (store w) site_options "admin_url"
    else VStr "" in
  match prop_of (store w) error "statusCode" with
  | VNum 0 =>
    notices_error (mkNotice (translate
      "There was an error retrieving your site settings. Please check your internet connection.")
      None) w
  | VNum 400 =>
    notices_error (mkNotice (translate "There was an error retrieving your site settings.")
      (Some (mkOptions (translate "Make sure your Jetpack is up to date")
                       (to_string adminURL +:+ "plugins.php?plugin_status=upgrade")))) w
  | VNum 401 =>
    notices_error (mkNotice (translate "You must be logged in to manage site settings.")
      None) w
  | VNum 403 =>
    notices_error (mkNotice (translate
      "You are not authorized to manage settings for this site.") None) w
  | _ => w
  end.

(** [Site.prototype.fetchSettings], up to the point where the request
    has been handed to the transport. *)
Definition fetchSettings (siteID : val) (w : World) : option World :=
  let requestID := or_else (read (this w) "ID") siteID in
  r ← set {["fetchingSettings" := VBool true]} w;
  Some (send (GetSettings requestID) r.2).

(** The callback [fetchSettings] hands to the transport, run in the world
    the response arrives in.  ([debug] only logs.) *)
Definition fetchSettings_callback (error data : val) (w : World) : option World :=
  if truthy error then Some (settingsErrorHandler error w)
  else
    h1 ← set_prop (store w) data "latestSettings" (VNum (clock w));
    h2 ← set_prop h1 data "fetchingSettings" (VBool false);
    r ← set (own_props h2 data) (with_store h2 w);
    Some r.2.

(** The [whitelistString] rewriting at the head of [saveSettings]:
    the settings to send, and the store after it. *)
Definition outgoing_settings (newSettings : val) (h : gmap loc cell)
    : option (val * gmap loc cell) :=
  ws ← get_prop h newSettings "whitelistString";
  match ws with
  | VStr s =>
    let a := alloc h (array_of (VStr <$> split_on newline s)) in
    h2 ← set_prop a.2 newSettings "jetpack_protect_whitelist" (VRef a.1);
    let o := alloc h2 (mkCell Plain (delete "whitelistString" (own_props h2 newSettings))) in
    Some (VRef o.1, o.2)
  | _ => Some (newSettings, h)
  end.

(** [Site.prototype.saveSettings], up to the point where the request has
    been handed to the transport.  The first component is the value of
    the variable [newSettings] the two closures go on to read. *)
Definition saveSettings (newSettings : val) (w : World) : option (val * World) :=
  r ← outgoing_settings newSettings (store w);
  Some (r.1, send (PostSettings (read (this w) "ID") r.1) (with_store r.2 w)).

(** One turn of the loop of [reflectSavedSettings], on the store and on
    [updatedAttributes]. *)
Definition reflect_step (newSettings savedSettings settings : val)
    (acc : gmap loc cell * gmap string val) (key : string)
    : option (gmap loc cell * gmap string val) :=
  u1 ← (if decide (key = "blogname")
        then x ← get_prop acc.1 newSettings "blogname"; Some (<["name" := x]> acc.2)
        else Some acc.2);
  u2 ← (if decide (key = "blogdescription")
        then x ← get_prop acc.1 newSettings "blogdescription";
             Some (<["description" := x]> u1)
        else Some u1);
  h ← set_prop acc.1 settings key (prop_of acc.1 savedSettings key);
  Some (h, u2).

Definition reflectSavedSettings (newSettings savedSettings : val) (w : World)
    : option World :=
  let settings := read (this w) "settings" in
  '(h, updatedAttributes) ←
    foldM (reflect_step newSettings savedSettings settings)
          (map_to_list (own_props (store w) savedSettings)).*1
          (store w, {["settings" := settings]});
  r ← set (<["settings" := settings]> updatedAttributes) (with_store h w);
  Some r.2.

(** The callback [saveSettings] hands to the transport. *)
Definition saveSettings_callback (newSettings error data : val) (w : World)
    : option World :=
  w1 ← (if truthy error then Some w
        else updated ← get_prop (store w) data "updated";
             if truthy updated then reflectSavedSettings newSettings updated w
             else Some w);
  Some (call_back error data w1).

(** The store after the two assignments to [data] in the callback of
    [fetchSettings]. *)
Definition stamped (data : val) (w : World) : option (gmap loc cell) :=
  h1 ← set_prop (store w) data "latestSettings" (VNum (clock w));
  set_prop h1 data "fetchingSettings" (VBool false).

(** Every comparison [set] makes for [bag] returns. *)
Definition comparable (h : gmap loc cell) (bag o : gmap string val) : Prop :=
  map_Forall (λ k v, is_Some (isEqual depth h v (read o k))) bag.

(** [Site.prototype.isUpgradeable]: [this.capabilities &&
    this.capabilities.manage_options]. *)
Definition isUpgradeable (w : World) : val :=
  let c := read (this w) "capabilities" in
  if truthy c then prop_of (store w) c "manage_options" else c.
End Site.

(** *** The loop of [reflectSavedSettings], part way

    What holds once the keys [done] of [saved] have been visited, starting
    from the store [h0] and the attributes [upd0], with [settings] the
    object at [ls] and [blogname], [blogdescription] the two values read
    off [newSettings]. *)
Definition written (ls : loc) (saved : gmap string val) (h0 : gmap loc cell)
    (done : list string) (h : gmap loc cell) : Prop :=
  (∀ l, l ≠ ls → h !! l = h0 !! l) ∧
  (done = [] → h = h0) ∧
  (done ≠ [] → is_Some (h !! ls)) ∧
  kind (deref h ls) = kind (deref h0 ls) ∧
  (∀ k, k ∈ done → props (deref h ls) !! k = saved !! k) ∧
  (∀ k, k ∉ done → props (deref h ls) !! k = props (deref h0 ls) !! k).

Definition promoted (blogname blogdescription : val) (upd0 : gmap string val)
    (done : list string) (upd : gmap string val) : Prop :=
  upd !! "name"
    = (if decide ("blogname" ∈ done) then Some blogname else upd0 !! "name") ∧
  upd !! "description"
    = (if decide ("blogdescription" ∈ done) then Some blogdescription
       else upd0 !! "description") ∧
  (∀ k, k ≠ "name" → k ≠ "description" → upd !! k = upd0 !! k).

(** [settings] after the loop: the saved keys laid over the old ones. *)
Definition merged (saved : gmap string val) (c : cell) : cell :=
  mkCell (kind c) (saved ∪ props c).

End SiteModel.

(* ===================================================================== *)
(** ** Fixtures *)
(* ===================================================================== *)

(** The actions of the data-layer test suite. *)
Module TestActions.
Import DataLayer.

(** Object literals of the tests. *)
Inductive scalar :=
  | JNum (n : Z)
  | JStr (s : string).

Inductive json :=
  | JScalar (x : scalar)
  | JObj (fields : list (string * scalar)).

Definition WPCOM_HTTP_REQUEST : string := "WPCOM_HTTP_REQUEST".

Definition data : json := JObj [("count", JNum 5)].
Definition error : json := JObj [("message", JStr "oh no!")].
Definition progressInfo : json := JObj [("loaded", JNum 45); ("total", JNum 80)].

Definition empty : Action json := mkAction "REFILL" None.
Definition success : Action json := mkAction "REFILL" (Some (mkMetadata (Some data) None None)).
Definition failure : Action json := mkAction "REFILL" (Some (mkMetadata None (Some error) None)).
Definition progress : Action json :=
  mkAction "REFILL" (Some (mkMetadata None None (Some progressInfo))).
Definition both : Action json :=
  mkAction "REFILL" (Some (mkMetadata (Some data) (Some error) None)).

Definition ingressAction : Action json := mkAction WPCOM_HTTP_REQUEST None.
Definition egressAction : Action json :=
  mkAction "requestRooster" (Some (mkMetadata (Some (JScalar (JStr "Astro Chicken"))) None None)).
Definition egressError : Action json :=
  mkAction "requestRooster" (Some (mkMetadata None (Some (JScalar (JStr "no chickens"))) None)).
Definition unrelatedAction : Action json := mkAction "unrelated" None.

(** The spies [store] and [next] are told apart by name. *)
Definition store : string := "store".
Definition next : string := "next".

End TestActions.

(** A site and a few exchanges with the settings endpoint. *)
Module SiteFixtures.
Import JS SiteModel.

(** A stand-in for the computed attributes: [title] follows [name]. *)
Definition titled (h : gmap loc cell) (o : gmap string val) : gmap string val :=
  match o !! "name" with
  | Some v => {["title" := v]}
  | None => ∅
  end.

Definition translate (s : string) : string := s.

Definition depth : nat := 8.

Definition settings_cell : cell :=
  mkCell Plain {["blogname" := VStr "Foo"; "blogdescription" := VStr "Old desc"]}.

(** [Site( { ID: 7, name: 'Foo', description: 'Old desc', settings } )],
    built when the clock reads 1000. *)
Definition site7 : World :=
  attributes titled
    {["ID" := VNum 7; "name" := VStr "Foo"; "description" := VStr "Old desc";
      "settings" := VRef 1]}
    (new_site {[1%positive := settings_cell]} 1000).

(** [{ blogdescription: 'New desc' }], the argument of [saveSettings], and
    the response [{ updated: { blogdescription: 'New desc' } }]. *)
Definition new_desc : cell := mkCell Plain {["blogdescription" := VStr "New desc"]}.
Definition new_desc_response : cell := mkCell Plain {["updated" := VRef 3]}.

Definition site7_saving : World := deliver 2 new_desc site7.

Definition site7_saved : World :=
  deliver 4 new_desc_response
    (deliver 3 new_desc
       (send (PostSettings (VNum 7) (VRef 2)) site7_saving)).

(** A save that changes [settings] only: [{ lang_id: 5 }]. *)
Definition lang : cell := mkCell Plain {["lang_id" := VNum 5]}.
Definition lang_response : cell := mkCell Plain {["updated" := VRef 3]}.

Definition site7_lang_saved : World :=
  deliver 4 lang_response (deliver 3 lang (deliver 2 lang site7)).

(** The two whitelists: a string of two lines, and a number. *)
Definition two_lines : string := "10.0.0.1" +:+ String newline "10.0.0.2".
Definition whitelist_string : cell := mkCell Plain {["whitelistString" := VStr two_lines]}.
Definition whitelist_number : cell := mkCell Plain {["whitelistString" := VNum 42]}.

Definition site7_whitelist_number : World := deliver 2 whitelist_number site7.

(** A failure with status 403 and a successful response of the settings
    endpoint. *)
Definition forbidden : cell := mkCell Plain {["statusCode" := VNum 403]}.
Definition fetched : cell := mkCell Plain {["name" := VStr "Bar"; "lang_id" := VNum 5]}.

(** Two stores for [isEqual]: two objects with the same contents at 1 and
    2 and a third that differs at 3; and two objects that each refer to
    themselves. *)
Definition three_objects : gmap loc cell :=
  {[ 1%positive := mkCell Plain {["a" := VNum 1; "b" := VStr "x"]};
     2%positive := mkCell Plain {["a" := VNum 1; "b" := VStr "x"]};
     3%positive := mkCell Plain {["a" := VNum 1; "b" := VStr "y"]} ]}.

Definition two_loops : gmap loc cell :=
  {[ 1%positive := mkCell Plain {["self" := VRef 1]};
     2%positive := mkCell Plain {["self" := VRef 2]} ]}.

(** A copy of the settings of [site7] with another description. *)
Definition settings_copy : cell :=
  mkCell Plain {["blogname" := VStr "Foo"; "blogdescription" := VStr "New desc"]}.

(** [Site( { ID: 7 } )] with an empty store, and the response
    [{ blogname: 'Foo' }] to its [fetchSettings()], 25 ms later. *)
Definition bare7 : World := attributes titled {["ID" := VNum 7]} (new_site ∅ 1000).
Definition blogname_foo : cell := mkCell Plain {["blogname" := VStr "Foo"]}.

Definition bare7_fetched : option World :=
  w1 ← fetchSettings titled depth VUndef bare7;
  fetchSettings_callback titled translate depth VNull (VRef 1)
    (elapse 25 (deliver 1 blogname_foo w1)).

(** The same site, which holds no [settings], when the response to
    [saveSettings( { blogdescription: 'New desc' }, cb )] arrives. *)
Definition bare7_saved : World :=
  deliver 4 new_desc_response (deliver 3 new_desc (deliver 2 new_desc bare7)).

(** [fetchSettings()] on [site7], answered before the clock has moved. *)
Definition fetched_at_once : option World :=
  w1 ← fetchSettings titled depth VUndef site7;
  fetchSettings_callback titled translate depth VNull (VRef 6) (deliver 6 fetched w1).

End SiteFixtures.

(* ===================================================================== *)
(** ** Properties of the data layer *)
(* ===================================================================== *)

Module DataLayerFacts.
Import DataLayer.

Section Dispatcher.
Context {Store Next Payload W : Type}.
Implicit Types (a : Action Payload) (m : Metadata Payload).
Variables (initiate : @Initiator Store Next Payload W)
          (onSuccess onFailure onProgress : @Responder Store Next Payload W).

Lemma dispatchRequest_no_meta s a n :
  meta a = None →
  dispatchRequest initiate onSuccess onFailure onProgress s a n = initiate s a n.
Proof. unfold dispatchRequest. by intros ->. Qed.

Lemma dispatchRequest_error s a n m e :
  meta a = Some m → error m = Some e →
  dispatchRequest initiate onSuccess onFailure onProgress s a n = onFailure s a n e.
Proof. unfold dispatchRequest. by intros -> ->. Qed.

Lemma dispatchRequest_progress s a n m p :
  meta a = Some m → error m = None → progress m = Some p →
  dispatchRequest initiate onSuccess onFailure onProgress s a n = onProgress s a n p.
Proof. unfold dispatchRequest. by intros -> -> ->. Qed.

Lemma dispatchRequest_data s a n m d :
  meta a = Some m → error m = None → progress m = None → data m = Some d →
  dispatchRequest initiate onSuccess onFailure onProgress s a n = onSuccess s a n d.
Proof. unfold dispatchRequest. by intros -> -> -> ->. Qed.
End Dispatcher.

Section Spies.
Context {Store Next Payload : Type}.
Implicit Types (a : Action Payload) (m : Metadata Payload)
               (log : list (Call Store Next Payload)) (s : Store) (n : Next).

Lemma callCount_record (p : Call Store Next Payload → bool) c log :
  callCount p (record c log) = (callCount p log + if p c then 1 else 0)%nat.
Proof.
  unfold callCount, record. rewrite filter_app, length_app. f_equal.
  destruct (p c) eqn:Hp.
  - by rewrite filter_cons_True, filter_nil.
  - rewrite filter_cons_False, filter_nil; [done | by rewrite Hp].
Qed.

(** The handler the contract picks for a well-formed action. *)
Lemma dispatcher_one_call s a n log :
  well_formed a →
  ∃ c, dispatcher s a n log = log ++ [c] ∧ is_handler_call c = true.
Proof.
  intros Hwf. unfold dispatcher, dispatchRequest.
  destruct (meta a) as [m|] eqn:Hm; [| by eexists].
  destruct (error m) eqn:He; [by eexists |].
  destruct (progress m) eqn:Hp; [by eexists |].
  destruct (data m) eqn:Hd; [by eexists |].
  destruct (Hwf m Hm) as [[? ?]|[[? ?]|[? ?]]]; congruence.
Qed.
End Spies.

(** C1. Every call of the dispatcher built by [dispatchRequest] on a
    well-formed action (no metadata, or metadata holding at least one of
    its fields) runs exactly one of the four handlers: [initiate] when the
    metadata is absent, else [onFailure] with the error when there is one,
    else [onProgress] with the progress report when there is one, else
    [onSuccess] with the response.  Stated for arbitrary handlers, and for
    the spies of the test suite, whose log grows by exactly one call. *)
Theorem dispatchRequest_one_handler_by_priority
    {Store Next Payload : Type} (s : Store) (a : Action Payload) (n : Next) :
  well_formed a →
  (∀ (W : Type) (initiate : Initiator W) (onSuccess onFailure onProgress : Responder W),
     let run := dispatchRequest initiate onSuccess onFailure onProgress s a n in
     (meta a = None → run = initiate s a n) ∧
     (∀ m e, meta a = Some m → error m = Some e → run = onFailure s a n e) ∧
     (∀ m p, meta a = Some m → error m = None → progress m = Some p →
        run = onProgress s a n p) ∧
     (∀ m d, meta a = Some m → error m = None → progress m = None → data m = Some d →
        run = onSuccess s a n d)) ∧
  (∀ log : list (Call Store Next Payload),
     ∃ c, dispatcher s a n log = log ++ [c] ∧
          is_handler_call c = true ∧
          callCount is_handler_call (dispatcher s a n log)
            = S (callCount is_handler_call log) ∧
          (meta a = None → c = CalledInitiate s a n) ∧
          (∀ m e, meta a = Some m → error m = Some e → c = CalledFailure s a n e) ∧
          (∀ m p, meta a = Some m → error m = None → progress m = Some p →
             c = CalledProgress s a n p) ∧
          (∀ m d, meta a = Some m → error m = None → progress m = None →
             data m = Some d → c = CalledSuccess s a n d)).
Proof.
  intros Hwf. split.
  - intros W initiate onSuccess onFailure onProgress run. subst run.
    repeat split.
    + apply dispatchRequest_no_meta.
    + apply dispatchRequest_error.
    + apply dispatchRequest_progress.
    + apply dispatchRequest_data.
  - intros log. destruct (dispatcher_one_call s a n log Hwf) as (c & Hc & Hh).
    exists c. split; [done |]. split; [done |]. split.
    { rewrite Hc. change (log ++ [c]) with (record c log).
      rewrite callCount_record, Hh. lia. }
    repeat split.
    + intros Hm. apply (dispatchRequest_no_meta initiator onSuccess onFailure onProgress s a n)
        in Hm. unfold dispatcher in Hc. rewrite Hm in Hc.
      unfold initiator, record in Hc. by simplify_list_eq.
    + intros m e Hm He.
      pose proof (dispatchRequest_error initiator onSuccess onFailure onProgress s a n m e Hm He)
        as Hr. unfold dispatcher in Hc. rewrite Hr in Hc.
      unfold onFailure, record in Hc. by simplify_list_eq.
    + intros m p Hm He Hp.
      pose proof (dispatchRequest_progress initiator onSuccess onFailure onProgress
                    s a n m p Hm He Hp) as Hr.
      unfold dispatcher in Hc. rewrite Hr in Hc.
      unfold onProgress, record in Hc. by simplify_list_eq.
    + intros m d Hm He Hp Hd.
      pose proof (dispatchRequest_data initiator onSuccess onFailure onProgress
                    s a n m d Hm He Hp Hd) as Hr.
      unfold dispatcher in Hc. rewrite Hr in Hc.
      unfold onSuccess, record in Hc. by simplify_list_eq.
Qed.

Lemma dispatchRequest_one_handler_by_priority_witness :
  ∃ c, dispatcher TestActions.store TestActions.success TestActions.next [] = [c] ∧
       c = CalledSuccess TestActions.store TestActions.success TestActions.next
             TestActions.data.
Proof.
  assert (Hwf : well_formed TestActions.success).
  { intros m Hm. injection Hm as <-. left. simpl. by eexists. }
  destruct (dispatchRequest_one_handler_by_priority
              TestActions.store TestActions.success TestActions.next Hwf) as [_ Hspy].
  destruct (Hspy []) as (c & Hc & _ & _ & _ & _ & _ & Hd).
  exists c. split; [exact Hc |].
  by apply (Hd (mkMetadata (Some TestActions.data) None None)).
Defined.

(** C2. When the metadata carries both a response and an error, the
    dispatcher runs [onFailure] with the error and nothing else: for any
    handlers its effect is that of [onFailure], and with the spies of the
    test suite the log grows by that one call, so the count of [onSuccess]
    calls stays as it was. *)
Theorem dispatchRequest_error_beats_data
    {Store Next Payload : Type} (s : Store) (a : Action Payload) (n : Next)
    (m : Metadata Payload) (d e : Payload) :
  meta a = Some m → data m = Some d → error m = Some e →
  (∀ (W : Type) (initiate : Initiator W) (onSuccess onFailure onProgress : Responder W),
     dispatchRequest initiate onSuccess onFailure onProgress s a n = onFailure s a n e) ∧
  (∀ log : list (Call Store Next Payload),
     dispatcher s a n log = log ++ [CalledFailure s a n e] ∧
     callCount is_success_call (dispatcher s a n log) = callCount is_success_call log ∧
     callCount is_handler_call (dispatcher s a n log) = S (callCount is_handler_call log)).
Proof.
  intros Hm _ He. split.
  - intros. by eapply dispatchRequest_error.
  - intros log. unfold dispatcher.
    rewrite (dispatchRequest_error _ _ _ _ s a n m e Hm He).
    unfold onFailure. rewrite !callCount_record. simpl. split; [done |]. lia.
Qed.

Lemma dispatchRequest_error_beats_data_witness :
  dispatcher TestActions.store TestActions.both TestActions.next []
    = [CalledFailure TestActions.store TestActions.both TestActions.next TestActions.error].
Proof.
  refine (proj1 (proj2 (dispatchRequest_error_beats_data
            TestActions.store TestActions.both TestActions.next
            (mkMetadata (Some TestActions.data) (Some TestActions.error) None)
            TestActions.data TestActions.error _ _ _) [])); reflexivity.
Defined.

Section Router.
Context {Store Next Payload W : Type}.
Variable WPCOM_HTTP_REQUEST : string.
Variables (call : Next → Action Payload → W → W)
          (handleIngress handleEgress : @Processor Store Next Payload W).

Lemma processHttpRequest_ingress s n a :
  isHttpIngress WPCOM_HTTP_REQUEST a = true →
  processHttpRequest WPCOM_HTTP_REQUEST call handleIngress handleEgress s n a
    = handleIngress s n a.
Proof. unfold processHttpRequest. by intros ->. Qed.

Lemma processHttpRequest_egress s n a :
  isHttpIngress WPCOM_HTTP_REQUEST a = false → isHttpEgress a = true →
  processHttpRequest WPCOM_HTTP_REQUEST call handleIngress handleEgress s n a
    = handleEgress s n a.
Proof. unfold processHttpRequest. by intros -> ->. Qed.

Lemma processHttpRequest_forward s n a :
  isHttpIngress WPCOM_HTTP_REQUEST a = false → isHttpEgress a = false →
  processHttpRequest WPCOM_HTTP_REQUEST call handleIngress handleEgress s n a
    = call n a.
Proof. unfold processHttpRequest. by intros -> ->. Qed.
End Router.

(** C3. The stage built by [processHttpRequest] hands an ingress action to
    [handleIngress], an egress action (one that is not ingress) to
    [handleEgress], and any other action to [next], unchanged.  For any
    handlers its effect is that of the one function it picks; with the
    spies of the test suite the log grows by exactly one call, and the
    count of [next] calls moves only for an action that is neither. *)
Theorem processHttpRequest_routes
    {Store Next Payload : Type} (WPCOM_HTTP_REQUEST : string)
    (s : Store) (n : Next) (a : Action Payload) :
  (∀ (W : Type) (call : Next → Action Payload → W → W) (hIn hOut : Processor W),
     let run := processHttpRequest WPCOM_HTTP_REQUEST call hIn hOut s n a in
     (isHttpIngress WPCOM_HTTP_REQUEST a = true → run = hIn s n a) ∧
     (isHttpIngress WPCOM_HTTP_REQUEST a = false → isHttpEgress a = true →
        run = hOut s n a) ∧
     (isHttpIngress WPCOM_HTTP_REQUEST a = false → isHttpEgress a = false →
        run = call n a)) ∧
  (∀ log : list (Call Store Next Payload),
     let log' := stage WPCOM_HTTP_REQUEST s n a log in
     (isHttpIngress WPCOM_HTTP_REQUEST a = true →
        log' = log ++ [CalledIngress s n a] ∧
        callCount is_next_call log' = callCount is_next_call log ∧
        callCount is_ingress_call log' = S (callCount is_ingress_call log) ∧
        callCount is_egress_call log' = callCount is_egress_call log) ∧
     (isHttpIngress WPCOM_HTTP_REQUEST a = false → isHttpEgress a = true →
        log' = log ++ [CalledEgress s n a] ∧
        callCount is_next_call log' = callCount is_next_call log ∧
        callCount is_egress_call log' = S (callCount is_egress_call log) ∧
        callCount is_ingress_call log' = callCount is_ingress_call log) ∧
     (isHttpIngress WPCOM_HTTP_REQUEST a = false → isHttpEgress a = false →
        log' = log ++ [CalledNext n a] ∧
        callCount is_next_call log' = S (callCount is_next_call log) ∧
        callCount is_ingress_call log' = callCount is_ingress_call log ∧
        callCount is_egress_call log' = callCount is_egress_call log)).
Proof.
  split.
  - intros W call hIn hOut run. subst run. repeat split.
    + apply processHttpRequest_ingress.
    + apply processHttpRequest_egress.
    + apply processHttpRequest_forward.
  - intros log log'. subst log'. unfold stage. split; [| split].
    + intros Hi. rewrite (processHttpRequest_ingress _ _ _ _ s n a Hi).
      unfold handleIngress. rewrite !callCount_record. simpl.
      repeat split; first [done | lia].
    + intros Hi He. rewrite (processHttpRequest_egress _ _ _ _ s n a Hi He).
      unfold handleEgress. rewrite !callCount_record. simpl.
      repeat split; first [done | lia].
    + intros Hi He. rewrite (processHttpRequest_forward _ _ _ _ s n a Hi He).
      unfold next_spy. rewrite !callCount_record. simpl.
      repeat split; first [done | lia].
Qed.

(** Actions that are neither ingress nor egress reach [next] in the order
    they came in. *)
Lemma feed_forwards_in_order {Store Next Payload : Type} (WPCOM_HTTP_REQUEST : string)
    (s : Store) (n : Next) (actions : list (Action Payload))
    (log : list (Call Store Next Payload)) :
  Forall (λ a, isHttpIngress WPCOM_HTTP_REQUEST a = false ∧ isHttpEgress a = false) actions →
  feed WPCOM_HTTP_REQUEST s n actions log = log ++ (CalledNext n <$> actions).
Proof.
  intros Hall. revert log. induction Hall as [|a actions [Hi He] _ IH]; intros log.
  - simpl. by rewrite app_nil_r.
  - change (feed WPCOM_HTTP_REQUEST s n (a :: actions) log)
      with (feed WPCOM_HTTP_REQUEST s n actions (stage WPCOM_HTTP_REQUEST s n a log)).
    rewrite IH. unfold stage.
    rewrite (processHttpRequest_forward _ _ _ _ s n a Hi He).
    unfold next_spy, record. rewrite fmap_cons. by rewrite <- app_assoc.
Qed.

Lemma processHttpRequest_routes_witness :
  stage TestActions.WPCOM_HTTP_REQUEST TestActions.store TestActions.next
        TestActions.egressAction []
    = [CalledEgress TestActions.store TestActions.next TestActions.egressAction].
Proof.
  refine (proj1 (proj1 (proj2 (proj2 (processHttpRequest_routes
            TestActions.WPCOM_HTTP_REQUEST TestActions.store TestActions.next
            TestActions.egressAction) [])) _ _)); reflexivity.
Defined.

(** The data-layer tests, replayed. *)
Section Tests.
Import TestActions.

Example getData_available : getData success = Some data.
Proof. reflexivity. Qed.

Example getData_none : getData empty = None.
Proof. reflexivity. Qed.

Example getError_available : getError failure = Some error.
Proof. reflexivity. Qed.

Example getError_none : getError empty = None.
Proof. reflexivity. Qed.

Example getProgress_available : getProgress progress = Some progressInfo.
Proof. reflexivity. Qed.

Example dispatch_empty : dispatcher store empty next [] = [CalledInitiate store empty next].
Proof. reflexivity. Qed.

Example dispatch_success :
  dispatcher store success next [] = [CalledSuccess store success next data].
Proof. reflexivity. Qed.

Example dispatch_failure :
  dispatcher store failure next [] = [CalledFailure store failure next error].
Proof. reflexivity. Qed.

Example dispatch_both :
  dispatcher store both next [] = [CalledFailure store both next error].
Proof. reflexivity. Qed.

Example dispatch_progress :
  dispatcher store progress next [] = [CalledProgress store progress next progressInfo].
Proof. reflexivity. Qed.

Example ingress_is_ingress : isHttpIngress WPCOM_HTTP_REQUEST ingressAction = true.
Proof. reflexivity. Qed.

Example unrelated_not_ingress : isHttpIngress WPCOM_HTTP_REQUEST unrelatedAction = false.
Proof. reflexivity. Qed.

Example egress_is_egress : isHttpEgress egressAction = true ∧ isHttpEgress egressError = true.
Proof. split; reflexivity. Qed.

Example unrelated_not_egress : isHttpEgress unrelatedAction = false.
Proof. reflexivity. Qed.

Example stage_unrelated :
  stage WPCOM_HTTP_REQUEST store next unrelatedAction [] = [CalledNext next unrelatedAction].
Proof. reflexivity. Qed.

Example stage_ingress :
  stage WPCOM_HTTP_REQUEST store next ingressAction []
    = [CalledIngress store next ingressAction].
Proof. reflexivity. Qed.

Example stage_egress :
  stage WPCOM_HTTP_REQUEST store next egressAction []
    = [CalledEgress store next egressAction].
Proof. reflexivity. Qed.
End Tests.

End DataLayerFacts.

(* ===================================================================== *)
(** ** Properties of values, stores and [isEqual] *)
(* ===================================================================== *)

Module JSFacts.
Import JS.

Lemma isEqual_refl d h a : isEqual d h a a = Some true.
Proof. destruct d; simpl; by rewrite decide_True. Qed.

Lemma isEqual_primitive_l d h a b :
  is_primitive a = true → isEqual d h a b = Some (bool_decide (a = b)).
Proof.
  intros Ha. destruct d; simpl; case_decide.
  all: try (by rewrite bool_decide_eq_true_2).
  all: rewrite bool_decide_eq_false_2 by done; by destruct a, b.
Qed.

Lemma isEqual_primitive_r d h a b :
  is_primitive b = true → isEqual d h a b = Some (bool_decide (a = b)).
Proof.
  intros Hb. destruct d; simpl; case_decide.
  all: try (by rewrite bool_decide_eq_true_2).
  all: rewrite bool_decide_eq_false_2 by done; by destruct a, b.
Qed.

Lemma isEqual_true_primitive d h a b :
  is_primitive a = true ∨ is_primitive b = true →
  isEqual d h a b = Some true → a = b.
Proof.
  intros [Hp|Hp] He.
  - rewrite (isEqual_primitive_l d h a b Hp) in He. injection He as He.
    by apply bool_decide_eq_true_1 in He.
  - rewrite (isEqual_primitive_r d h a b Hp) in He. injection He as He.
    by apply bool_decide_eq_true_1 in He.
Qed.

Lemma isEqual_undefined d h b : b ≠ VUndef → isEqual d h VUndef b = Some false.
Proof.
  intros Hb. rewrite (isEqual_primitive_l d h VUndef b eq_refl).
  by rewrite bool_decide_eq_false_2.
Qed.

Lemma read_insert_eq (o : gmap string val) k v : read (<[k := v]> o) k = v.
Proof. unfold read. by rewrite lookup_insert_eq. Qed.

Lemma read_insert_ne (o : gmap string val) k k' v :
  k ≠ k' → read (<[k := v]> o) k' = read o k'.
Proof. intros. unfold read. by rewrite lookup_insert_ne. Qed.

Lemma read_delete_ne (o : gmap string val) k k' :
  k ≠ k' → read (delete k o) k' = read o k'.
Proof. intros. unfold read. by rewrite lookup_delete_ne. Qed.

Lemma read_Some (o : gmap string val) k v : o !! k = Some v → read o k = v.
Proof. unfold read. by intros ->. Qed.

Lemma elem_of_snoc_eq {A} (l : list A) x : x ∈ l ++ [x].
Proof. apply elem_of_app. right. by apply list_elem_of_singleton. Qed.

Lemma elem_of_snoc_ne {A} (l : list A) x y : x ≠ y → x ∈ l ++ [y] ↔ x ∈ l.
Proof.
  intros Hne. rewrite elem_of_app, list_elem_of_singleton. split; [| by left].
  by intros [?|?].
Qed.

Lemma foldM_cons {A B} (f : A → B → option A) b l a :
  foldM f (b :: l) a = f a b ≫= foldM f l.
Proof. reflexivity. Qed.

Lemma foldM_app {A B} (f : A → B → option A) l1 l2 a :
  foldM f (l1 ++ l2) a = foldM f l1 a ≫= foldM f l2.
Proof.
  revert a. induction l1 as [|b l1 IH]; intros a; simpl; [done |].
  destruct (f a b); simpl; [apply IH | done].
Qed.

(** [split_on] and [join_with] are inverse to each other. *)
Lemma split_on_nonempty sep s : split_on sep s ≠ [].
Proof.
  induction s as [|c s IH]; simpl; [done |].
  destruct (Ascii.eqb c sep); [done |]. by destruct (split_on sep s).
Qed.

Lemma join_split sep s : join_with sep (split_on sep s) = s.
Proof.
  induction s as [|c s IH]; simpl; [done |].
  destruct (Ascii.eqb c sep) eqn:Hc.
  - apply Ascii.eqb_eq in Hc as ->.
    pose proof (split_on_nonempty sep s).
    destruct (split_on sep s) as [|p rest]; [done |]. simpl in *. by rewrite IH.
  - pose proof (split_on_nonempty sep s).
    destruct (split_on sep s) as [|p rest]; [done |].
    destruct rest; simpl in *; by rewrite <- IH.
Qed.

Lemma split_on_pieces sep s p : p ∈ split_on sep s → contains sep p = false.
Proof.
  revert p. induction s as [|c s IH]; intros p; simpl.
  - by intros ->%list_elem_of_singleton.
  - destruct (Ascii.eqb c sep) eqn:Hc.
    + intros [->|Hp]%elem_of_cons; [done | by apply IH].
    + pose proof (split_on_nonempty sep s).
      destruct (split_on sep s) as [|q rest]; [done |].
      intros [->|Hp]%elem_of_cons.
      * simpl. rewrite Hc. apply IH. by left.
      * apply IH. by right.
Qed.

Lemma deref_insert_eq (h : gmap loc cell) l c : deref (<[l := c]> h) l = c.
Proof. unfold deref. by rewrite lookup_insert_eq. Qed.

Lemma deref_insert_ne (h : gmap loc cell) l l' c : l ≠ l' → deref (<[l := c]> h) l' = deref h l'.
Proof. intros. unfold deref. by rewrite lookup_insert_ne. Qed.

Lemma deref_agree (h h' : gmap loc cell) l : h !! l = h' !! l → deref h l = deref h' l.
Proof. unfold deref. by intros ->. Qed.

Lemma foldM_is_Some {A B} (f : A → B → option A) (l : list B) (a : A) :
  (∀ a' b, b ∈ l → is_Some (f a' b)) → is_Some (foldM f l a).
Proof.
  revert a. induction l as [|b l IH]; intros a Hf; [by eexists |].
  rewrite foldM_cons. destruct (Hf a b) as [a' Ha']; [by left |].
  rewrite Ha'. apply IH. intros a'' b' Hb'. apply Hf. by right.
Qed.

(** On a store without cycles [isEqual] returns once [depth] is above the
    nesting under its first argument. *)
Lemma isEqual_returns rank h d a b :
  ranked rank h → rank_of rank a ≤ d → is_Some (isEqual d h a b).
Proof.
  intros Hranked. revert a b. induction d as [|d IH]; intros a b Hd.
  - destruct a; simpl in Hd; try lia; simpl; case_decide; try (by eexists);
      destruct b; by eexists.
  - simpl. case_decide; [by eexists |].
    destruct a as [| | | | |la]; try (destruct b; by eexists).
    destruct b as [| | | | |lb]; try by eexists.
    case_decide; [| by eexists]. case_decide; [| by eexists].
    apply foldM_is_Some. intros acc [k v] Hkv.
    destruct acc; [| by eexists]. apply IH.
    apply elem_of_map_to_list in Hkv. simpl.
    pose proof (Hranked la k v Hkv). simpl in Hd. lia.
Qed.

End JSFacts.

(* ===================================================================== *)
(** ** Properties of the Site model *)
(* ===================================================================== *)

Module SiteFacts.
Import JS SiteModel JSFacts.

Section Setting.
Variable getAttributes : gmap loc cell → gmap string val → gmap string val.
Variable depth : nat.

Lemma set_step_eq h (o : gmap string val) (c : bool) k v :
  set_step depth h (o, c) (k, v)
    = match isEqual depth h v (read o k) with
      | Some true => Some (o, c)
      | Some false => Some (if decide (v = VUndef) then delete k o else <[k := v]> o, true)
      | None => None
      end.
Proof. unfold set_step. cbn [fst snd]. by destruct (isEqual depth h v (read o k)) as [[]|]. Qed.

Lemma set_loop_same h (l : list (string * val)) (o : gmap string val) (c : bool) :
  (∀ k v, (k, v) ∈ l → isEqual depth h v (read o k) = Some true) →
  foldM (set_step depth h) l (o, c) = Some (o, c).
Proof.
  induction l as [|[k v] l IH]; intros H; [done |].
  rewrite foldM_cons, set_step_eq, (H k v) by left. cbn [mbind option_bind].
  apply IH. intros k' v' Hin. apply H. by right.
Qed.

(** What the loop of [set] leaves behind, key by key. *)
Lemma set_loop_spec h (l : list (string * val)) (o : gmap string val) (c : bool) :
  NoDup l.*1 →
  (∀ k v, (k, v) ∈ l → is_Some (isEqual depth h v (read o k))) →
  ∃ o' c',
    foldM (set_step depth h) l (o, c) = Some (o', c') ∧
    (∀ k, k ∉ l.*1 → o' !! k = o !! k) ∧
    (∀ k v, (k, v) ∈ l →
       (isEqual depth h v (read o k) = Some true ∧ o' !! k = o !! k) ∨
       (isEqual depth h v (read o k) = Some false ∧ c' = true ∧
        o' !! k = if decide (v = VUndef) then None else Some v)) ∧
    (c' = true → c = true ∨
       ∃ k v, (k, v) ∈ l ∧ isEqual depth h v (read o k) = Some false) ∧
    (c = true → c' = true).
Proof.
  revert o c. induction l as [|[k v] l IH]; intros o c Hnd Hterm.
  { exists o, c. simpl. split; [done |]. split; [done |]. split.
    - intros ?? Hin. by apply elem_of_nil in Hin.
    - split; [by left | done]. }
  rewrite fmap_cons in Hnd. apply NoDup_cons in Hnd as [Hk Hnd]. simpl in Hk.
  destruct (Hterm k v) as [b Hb]; [by left |].
  assert (Hother : ∀ k' v', (k', v') ∈ l → k' ≠ k).
  { intros k' v' Hin ->. apply Hk. apply list_elem_of_fmap. by exists (k, v'). }
  destruct b.
  - destruct (IH o c Hnd) as (o' & c' & Hrun & Hout & Hin & Hc & Hc').
    { intros k' v' Hin'. apply Hterm. by right. }
    exists o', c'. split.
    { rewrite foldM_cons, set_step_eq, Hb. exact Hrun. }
    split. { intros k' Hk'. apply Hout. intros Hin'. apply Hk'. rewrite fmap_cons. by right. }
    split.
    { intros k' v' [Heq|Hin']%elem_of_cons.
      - injection Heq as -> ->. left. split; [done |]. by apply Hout.
      - by apply Hin. }
    split; [| done].
    intros Ht. destruct (Hc Ht) as [?|(k' & v' & ? & ?)]; [by left |].
    right. exists k', v'. split; [by right | done].
  - set (o1 := if decide (v = VUndef) then delete k o else <[k := v]> o).
    assert (Ho1 : ∀ k', k' ≠ k → o1 !! k' = o !! k').
    { intros k' Hne. unfold o1. case_decide.
      - by rewrite lookup_delete_ne.
      - by rewrite lookup_insert_ne. }
    assert (Ho1k : o1 !! k = if decide (v = VUndef) then None else Some v).
    { unfold o1. case_decide.
      - by rewrite lookup_delete_eq.
      - by rewrite lookup_insert_eq. }
    assert (Hread : ∀ k', k' ≠ k → read o1 k' = read o k').
    { intros k' Hne. unfold read. by rewrite Ho1. }
    destruct (IH o1 true Hnd) as (o' & c' & Hrun & Hout & Hin & Hc & Hc').
    { intros k' v' Hin'. rewrite Hread by eauto. apply Hterm. by right. }
    specialize (Hc' eq_refl). subst c'.
    exists o', true. split.
    { rewrite foldM_cons, set_step_eq, Hb. exact Hrun. }
    split.
    { intros k' Hk'. rewrite fmap_cons in Hk'. simpl in Hk'.
      rewrite Hout by (intros Hin'; apply Hk'; by right).
      apply Ho1. intros ->. apply Hk'. by left. }
    split.
    { intros k' v' [Heq|Hin']%elem_of_cons.
      - injection Heq as -> ->. right. split; [done |]. split; [done |].
        by rewrite Hout.
      - destruct (Hin k' v' Hin') as [[He Hl]|(He & _ & Hl)].
        + left. rewrite Hread in He by eauto. rewrite Ho1 in Hl by eauto. done.
        + right. rewrite Hread in He by eauto. done. }
    split; [| done].
    intros _. right. exists k, v. split; [by left | done].
Qed.

Lemma this_updateComputedAttributes_raw w k :
  raw getAttributes k → this (updateComputedAttributes getAttributes w) !! k = this w !! k.
Proof. intros Hraw. simpl. rewrite lookup_union_r; [done | apply Hraw]. Qed.

(** [set] returns as soon as each comparison does. *)
Lemma set_spec (bag : gmap string val) (w : World) :
  (∀ k v, bag !! k = Some v → is_Some (isEqual depth (store w) v (read (this w) k))) →
  ∃ o' c',
    set getAttributes depth bag w
      = Some (c', (if c' : bool then emit_change else id)
                    (updateComputedAttributes getAttributes (with_this o' w))) ∧
    (∀ k, bag !! k = None → o' !! k = this w !! k) ∧
    (∀ k v, bag !! k = Some v →
       (isEqual depth (store w) v (read (this w) k) = Some true ∧ o' !! k = this w !! k) ∨
       (isEqual depth (store w) v (read (this w) k) = Some false ∧ c' = true ∧
        o' !! k = if decide (v = VUndef) then None else Some v)) ∧
    (c' = true → ∃ k v, bag !! k = Some v ∧
                        isEqual depth (store w) v (read (this w) k) = Some false).
Proof.
  intros Hterm.
  destruct (set_loop_spec (store w) (map_to_list bag) (this w) false)
    as (o' & c' & Hrun & Hout & Hin & Hc & _).
  { apply NoDup_fst_map_to_list. }
  { intros k v Hkv. apply Hterm. by apply elem_of_map_to_list. }
  exists o', c'. split.
  { unfold set. rewrite Hrun. simpl. by destruct c'. }
  split.
  { intros k Hk. apply Hout. intros ([k' v] & -> & Hkv)%list_elem_of_fmap.
    apply elem_of_map_to_list in Hkv. simpl in Hk. congruence. }
  split.
  { intros k v Hkv. apply Hin. by apply elem_of_map_to_list. }
  intros Ht. destruct (Hc Ht) as [?|(k & v & Hkv & He)]; [done |].
  exists k, v. split; [by apply elem_of_map_to_list | done].
Qed.

(** [set] changes nothing when nothing differs. *)
Lemma set_same (bag : gmap string val) (w : World) :
  (∀ k v, bag !! k = Some v → isEqual depth (store w) v (read (this w) k) = Some true) →
  set getAttributes depth bag w = Some (false, updateComputedAttributes getAttributes w).
Proof.
  intros Hsame. unfold set.
  rewrite set_loop_same.
  - simpl. by destruct w.
  - intros k v Hkv. apply Hsame. by apply elem_of_map_to_list.
Qed.

Lemma set_singleton a v (w : World) :
  set getAttributes depth {[a := v]} w
    = match isEqual depth (store w) v (read (this w) a) with
      | Some true => Some (false, updateComputedAttributes getAttributes w)
      | Some false =>
        Some (true, emit_change (updateComputedAttributes getAttributes
               (with_this (if decide (v = VUndef) then delete a (this w)
                           else <[a := v]> (this w)) w)))
      | None => None
      end.
Proof.
  unfold set. rewrite map_to_list_singleton, foldM_cons, set_step_eq.
  destruct (isEqual depth (store w) v (read (this w) a)) as [[]|]; [| done..].
  simpl. by destruct w.
Qed.
End Setting.

(** C6. [set] with a bag whose every value is deeply equal to what the
    site holds under that key stores and deletes nothing, emits no change
    event and returns [false]; all it does is lay the computed attributes
    over the site again, which leaves every other attribute alone and
    leaves a site whose computed attributes are up to date as it was.  In
    particular, setting an attribute that is not a computed one to the
    same primitive value twice in a row emits no event the second time. *)
Theorem set_same_values_is_noop
    (getAttributes : gmap loc cell → gmap string val → gmap string val) (depth : nat) :
  (∀ (bag : gmap string val) (w : World),
     (∀ k v, bag !! k = Some v →
        isEqual depth (store w) v (read (this w) k) = Some true) →
     ∃ w', set getAttributes depth bag w = Some (false, w') ∧
           changes w' = changes w ∧
           store w' = store w ∧
           this w' = getAttributes (store w) (this w) ∪ this w ∧
           (∀ k, raw getAttributes k → this w' !! k = this w !! k) ∧
           (getAttributes (store w) (this w) ∪ this w = this w → w' = w)) ∧
  (∀ (a : string) (v : val) (w : World),
     raw getAttributes a → is_primitive v = true →
     ∃ c1 w1 w2,
       set getAttributes depth {[a := v]} w = Some (c1, w1) ∧
       read (this w1) a = v ∧
       set getAttributes depth {[a := v]} w1 = Some (false, w2) ∧
       changes w2 = changes w1).
Proof.
  split.
  - intros bag w Hsame.
    exists (updateComputedAttributes getAttributes w).
    split; [by apply set_same |].
    split; [done |]. split; [done |]. split; [done |]. split.
    + intros k Hk. by apply this_updateComputedAttributes_raw.
    + intros Hfix. unfold updateComputedAttributes. rewrite Hfix. by destruct w.
  - intros a v w Hraw Hprim.
    assert (Hagain : ∀ w1 : World, read (this w1) a = v →
              set getAttributes depth {[a := v]} w1
                = Some (false, updateComputedAttributes getAttributes w1)).
    { intros w1 Hr. rewrite set_singleton, Hr, isEqual_refl. done. }
    rewrite set_singleton.
    rewrite (isEqual_primitive_l depth (store w) v (read (this w) a) Hprim).
    case_bool_decide as Hv.
    + exists false, (updateComputedAttributes getAttributes w),
        (updateComputedAttributes getAttributes (updateComputedAttributes getAttributes w)).
      assert (Hr : read (this (updateComputedAttributes getAttributes w)) a = v).
      { unfold read. rewrite this_updateComputedAttributes_raw by done. by rewrite Hv. }
      split; [done |]. split; [done |]. split; [by apply Hagain | done].
    + set (w1 := emit_change (updateComputedAttributes getAttributes
               (with_this (if decide (v = VUndef) then delete a (this w)
                           else <[a := v]> (this w)) w))).
      exists true, w1, (updateComputedAttributes getAttributes w1).
      assert (Hr : read (this w1) a = v).
      { unfold read, w1. cbn [this emit_change].
        rewrite this_updateComputedAttributes_raw by done. cbn [this with_this].
        case_decide as Hu.
        - by rewrite lookup_delete_eq, Hu.
        - by rewrite lookup_insert_eq. }
      split; [done |]. split; [done |]. split; [by apply Hagain | done].
Qed.

(** C7. When the site holds a defined value under [a], and [a] is not a
    computed attribute, [set( { a: undefined } )] deletes the property (it
    is gone from the site, not kept with the value [undefined]), emits one
    change event and returns [true]; other attributes that are not
    computed stay as they were. *)
Theorem set_undefined_deletes
    (getAttributes : gmap loc cell → gmap string val → gmap string val) (depth : nat)
    (a : string) (v : val) (w : World) :
  raw getAttributes a →
  this w !! a = Some v → v ≠ VUndef →
  ∃ w', set getAttributes depth {[a := VUndef]} w = Some (true, w') ∧
        this w' !! a = None ∧
        changes w' = S (changes w) ∧
        store w' = store w ∧
        (∀ k, k ≠ a → raw getAttributes k → this w' !! k = this w !! k).
Proof.
  intros Hraw Ha Hv.
  rewrite set_singleton, (read_Some _ _ _ Ha), isEqual_undefined by done.
  rewrite decide_True by done.
  eexists. split; [done |]. cbn [this changes store emit_change].
  split.
  { rewrite this_updateComputedAttributes_raw by done. apply lookup_delete_eq. }
  split; [done |]. split; [done |].
  intros k Hk Hrk. rewrite this_updateComputedAttributes_raw by done.
  cbn [this with_this]. by rewrite lookup_delete_ne.
Qed.

Lemma reflect_step_eq newSettings savedSettings ls h (upd : gmap string val) k :
  nullish newSettings = false →
  reflect_step newSettings savedSettings (VRef ls) (h, upd) k
    = Some (<[ls := mkCell (kind (deref h ls))
                      (<[k := prop_of h savedSettings k]> (props (deref h ls)))]> h,
            (if decide (k = "blogdescription")
             then <["description" := prop_of h newSettings "blogdescription"]>
             else id)
              ((if decide (k = "blogname")
                then <["name" := prop_of h newSettings "blogname"]>
                else id) upd)).
Proof.
  intros Hn. unfold reflect_step, get_prop. rewrite Hn. cbn [fst snd set_prop].
  repeat case_decide; done.
Qed.

Section Reflect.
Variables (newSettings savedSettings : val) (ls : loc) (h0 : gmap loc cell)
          (upd0 : gmap string val).
Hypothesis newSettings_object : nullish newSettings = false.

Local Abbreviation saved := (own_props h0 savedSettings).
Local Abbreviation blogname := (prop_of h0 newSettings "blogname").
Local Abbreviation blogdescription := (prop_of h0 newSettings "blogdescription").

(** While the loop runs, [savedSettings] reads as it did at the start. *)
Lemma written_saved done h :
  written ls saved h0 done h → (∀ k, k ∈ done → is_Some (saved !! k)) →
  own_props h savedSettings = saved.
Proof.
  intros (Hother & _ & _ & _ & Hdone & Hrest) Hsub.
  destruct savedSettings as [| | | | |lu]; try done.
  simpl. destruct (decide (lu = ls)) as [->|Hne].
  - apply map_eq. intros k. destruct (decide (k ∈ done)).
    + by apply Hdone.
    + by apply Hrest.
  - f_equal. apply deref_agree. by apply Hother.
Qed.

(** A key not visited yet reads off [newSettings] as it did at the start. *)
Lemma written_newSettings done h k :
  written ls saved h0 done h → k ∉ done →
  prop_of h newSettings k = prop_of h0 newSettings k.
Proof.
  intros (Hother & _ & _ & _ & _ & Hrest) Hk.
  unfold prop_of. destruct newSettings as [| | | | |ln]; try done.
  simpl. destruct (decide (ln = ls)) as [->|Hne].
  - unfold read. by rewrite Hrest.
  - f_equal. f_equal. apply deref_agree. by apply Hother.
Qed.

Lemma reflect_step_spec done h upd k v :
  written ls saved h0 done h → promoted blogname blogdescription upd0 done upd →
  (∀ k', k' ∈ done → is_Some (saved !! k')) →
  k ∉ done → saved !! k = Some v →
  ∃ h' upd',
    reflect_step newSettings savedSettings (VRef ls) (h, upd) k = Some (h', upd') ∧
    written ls saved h0 (done ++ [k]) h' ∧
    promoted blogname blogdescription upd0 (done ++ [k]) upd'.
Proof.
  intros Hw Hp Hsub Hk Hv.
  pose proof (written_saved done h Hw Hsub) as Hsaved.
  pose proof (written_newSettings done h) as Hns.
  rewrite reflect_step_eq by done.
  eexists _, _. split; [done |].
  destruct Hw as (Hother & Hnil & Hcons & Hkind & Hdone & Hrest).
  destruct Hp as (Hname & Hdesc & Hupd).
  split.
  - unfold prop_of. rewrite Hsaved. rewrite (read_Some _ _ _ Hv).
    split; [| split; [| split; [| split; [| split]]]].
    + intros l Hl. rewrite lookup_insert_ne by done. by apply Hother.
    + intros Hnil'. by destruct done.
    + intros _. rewrite lookup_insert_eq. by eexists.
    + by rewrite deref_insert_eq.
    + intros k' [Hk'| ->%list_elem_of_singleton]%elem_of_app; rewrite deref_insert_eq; simpl.
      * rewrite lookup_insert_ne by (intros ->; done). by apply Hdone.
      * by rewrite lookup_insert_eq.
    + intros k' Hk'. rewrite deref_insert_eq. simpl.
      rewrite lookup_insert_ne by set_solver. apply Hrest. set_solver.
  - split; [| split].
    + destruct (decide (k = "blogname")) as [->|Hn].
      * rewrite decide_False by done. unfold id. rewrite lookup_insert_eq.
        rewrite decide_True by apply elem_of_snoc_eq. f_equal. apply Hns; [| done].
        repeat split; done.
      * assert (Hiff : "blogname" ∈ done ++ [k] ↔ "blogname" ∈ done)
          by (apply elem_of_snoc_ne; congruence).
        destruct (decide (k = "blogdescription")); unfold id;
          [rewrite lookup_insert_ne by done |]; rewrite Hname.
        all: destruct (decide ("blogname" ∈ done)), (decide ("blogname" ∈ done ++ [k]));
             tauto || done.
    + destruct (decide (k = "blogdescription")) as [->|Hd].
      * rewrite lookup_insert_eq. rewrite decide_True by apply elem_of_snoc_eq. f_equal.
        apply Hns; [| done]. repeat split; done.
      * assert (Hiff : "blogdescription" ∈ done ++ [k] ↔ "blogdescription" ∈ done)
          by (apply elem_of_snoc_ne; congruence).
        destruct (decide (k = "blogname")); unfold id;
          [rewrite lookup_insert_ne by done |]; rewrite Hdesc.
        all: destruct (decide ("blogdescription" ∈ done)),
               (decide ("blogdescription" ∈ done ++ [k])); tauto || done.
    + intros k' Hk1 Hk2.
      destruct (decide (k = "blogdescription")), (decide (k = "blogname"));
        unfold id; rewrite ?lookup_insert_ne by done; by apply Hupd.
Qed.

Lemma reflect_loop_spec (l : list string) :
  NoDup l → (∀ k, k ∈ l → is_Some (saved !! k)) →
  ∃ h upd,
    foldM (reflect_step newSettings savedSettings (VRef ls)) l (h0, upd0) = Some (h, upd) ∧
    written ls saved h0 l h ∧
    promoted blogname blogdescription upd0 l upd.
Proof.
  induction l as [|k l IH] using rev_ind; intros Hnd Hsub.
  - exists h0, upd0. split; [done |]. split.
    + repeat split; try done. all: intros k Hk; by apply elem_of_nil in Hk.
    + repeat split; try done. all: by rewrite decide_False by apply not_elem_of_nil.
  - apply NoDup_app in Hnd as (Hnd & Hk & _).
    destruct IH as (h & upd & Hrun & Hw & Hp); [done | set_solver |].
    destruct (Hsub k) as [v Hv]; [set_solver |].
    destruct (reflect_step_spec l h upd k v) as (h' & upd' & Hstep & Hw' & Hp');
      [done | done | set_solver | set_solver | done |].
    exists h', upd'. split; [| done].
    rewrite foldM_app, Hrun. cbn [mbind option_bind]. rewrite foldM_cons, Hstep. done.
Qed.
End Reflect.

Lemma elem_of_keys (m : gmap string val) k : k ∈ (map_to_list m).*1 ↔ is_Some (m !! k).
Proof.
  rewrite list_elem_of_fmap. split.
  - intros ([k' v] & -> & Hkv). apply elem_of_map_to_list in Hkv. by eexists.
  - intros [v Hv]. exists (k, v). split; [done |]. by apply elem_of_map_to_list.
Qed.

(** The store once every key of [saved] has been written to [settings]. *)
Lemma written_all ls (saved : gmap string val) h0 h :
  written ls saved h0 (map_to_list saved).*1 h →
  (∀ l, l ≠ ls → h !! l = h0 !! l) ∧
  deref h ls = merged saved (deref h0 ls) ∧
  (saved ≠ ∅ → h = <[ls := merged saved (deref h0 ls)]> h0) ∧
  (saved = ∅ → h = h0).
Proof.
  intros (Hother & Hnil & Hcons & Hkind & Hdone & Hrest).
  assert (Hcell : deref h ls = merged saved (deref h0 ls)).
  { unfold merged. destruct (deref h ls) as [kd ps] eqn:Hd. simpl in *. f_equal; [done |].
    apply map_eq. intros k. rewrite lookup_union.
    destruct (saved !! k) as [v|] eqn:Hv.
    - rewrite Hdone by (apply elem_of_keys; by eexists). rewrite Hv.
      by destruct (props (deref h0 ls) !! k).
    - rewrite Hrest.
      + by destruct (props (deref h0 ls) !! k).
      + intros [? ?]%elem_of_keys. congruence. }
  split; [done |]. split; [done |]. split.
  - intros Hne. apply map_eq. intros l. destruct (decide (l = ls)) as [->|Hl].
    + rewrite lookup_insert_eq. destruct Hcons as [c Hc].
      { intros Hk. apply Hne. apply map_to_list_empty_iff.
        by apply fmap_nil_inv in Hk. }
      unfold deref in Hcell. rewrite Hc in Hcell. simpl in Hcell. by rewrite Hc, Hcell.
    + rewrite lookup_insert_ne by done. by apply Hother.
  - intros ->. apply Hnil. by rewrite map_to_list_empty.
Qed.

Section Saving.
Variable getAttributes : gmap loc cell → gmap string val → gmap string val.
Variable depth : nat.

(** [reflectSavedSettings] up to its call of [set]. *)
Lemma reflectSavedSettings_spec newSettings savedSettings ls (w : World) :
  nullish newSettings = false →
  read (this w) "settings" = VRef ls →
  let saved := own_props (store w) savedSettings in
  ∃ h bag,
    reflectSavedSettings getAttributes depth newSettings savedSettings w
      = (set getAttributes depth bag (with_store h w) ≫= λ r, Some r.2) ∧
    written ls saved (store w) (map_to_list saved).*1 h ∧
    bag !! "settings" = Some (VRef ls) ∧
    bag !! "name" = (if decide (is_Some (saved !! "blogname"))
                     then Some (prop_of (store w) newSettings "blogname") else None) ∧
    bag !! "description"
      = (if decide (is_Some (saved !! "blogdescription"))
         then Some (prop_of (store w) newSettings "blogdescription") else None) ∧
    (∀ k, k ≠ "settings" → k ≠ "name" → k ≠ "description" → bag !! k = None).
Proof.
  intros Hns Hset saved.
  destruct (reflect_loop_spec newSettings savedSettings ls (store w)
              {["settings" := VRef ls]} Hns (map_to_list saved).*1)
    as (h & upd & Hrun & Hw & Hname & Hdesc & Hupd).
  { apply NoDup_fst_map_to_list. }
  { intros k. apply elem_of_keys. }
  exists h, (<["settings" := VRef ls]> upd).
  split.
  { unfold reflectSavedSettings. rewrite Hset. fold saved. rewrite Hrun. done. }
  split; [done |]. split; [by rewrite lookup_insert_eq |].
  split; [| split].
  - rewrite lookup_insert_ne by done. rewrite Hname.
    destruct (decide ("blogname" ∈ (map_to_list saved).*1)) as [Hin|Hin],
             (decide (is_Some (saved !! "blogname"))) as [Hs|Hs]; try done.
    + by apply elem_of_keys in Hin.
    + by apply elem_of_keys in Hs.
  - rewrite lookup_insert_ne by done. rewrite Hdesc.
    destruct (decide ("blogdescription" ∈ (map_to_list saved).*1)) as [Hin|Hin],
             (decide (is_Some (saved !! "blogdescription"))) as [Hs|Hs]; try done.
    + by apply elem_of_keys in Hin.
    + by apply elem_of_keys in Hs.
  - intros k H1 H2 H3. rewrite lookup_insert_ne by done. rewrite Hupd by done.
    by rewrite lookup_singleton_ne.
Qed.

(** The bag [reflectSavedSettings] hands to [set], key by key. *)
Lemma reflected_bag_cases (bag : gmap string val) (s : val) (n d : option val) k v :
  bag !! "settings" = Some s → bag !! "name" = n → bag !! "description" = d →
  (∀ k, k ≠ "settings" → k ≠ "name" → k ≠ "description" → bag !! k = None) →
  bag !! k = Some v →
  (k = "settings" ∧ v = s) ∨ (k = "name" ∧ n = Some v) ∨ (k = "description" ∧ d = Some v).
Proof.
  intros Hs Hn Hd Hrest Hk.
  destruct (decide (k = "settings")) as [->|H1]; [left; split; congruence |].
  destruct (decide (k = "name")) as [->|H2]; [right; left; split; congruence |].
  destruct (decide (k = "description")) as [->|H3]; [right; right; split; congruence |].
  rewrite Hrest in Hk by done. done.
Qed.
End Saving.

(** C10. After a successful save whose [updated] record is not empty and
    brings no new [name] or [description], no change event is emitted and
    [set] reports no change, although the [settings] object now holds the
    updated keys: they were written into that very object before [set]
    compared it with itself. *)
Theorem saveSettings_in_place_update_is_silent
    (getAttributes : gmap loc cell → gmap string val → gmap string val) (depth : nat)
    (newSettings error data : val) (lu ls : loc) (w : World) :
  let saved := props (deref (store w) lu) in
  let h' := <[ls := merged saved (deref (store w) ls)]> (store w) in
  nullish newSettings = false →
  truthy error = false → nullish data = false →
  prop_of (store w) data "updated" = VRef lu →
  saved ≠ ∅ →
  read (this w) "settings" = VRef ls →
  (is_Some (saved !! "blogname") →
     isEqual depth h' (prop_of (store w) newSettings "blogname") (read (this w) "name")
       = Some true) →
  (is_Some (saved !! "blogdescription") →
     isEqual depth h' (prop_of (store w) newSettings "blogdescription")
       (read (this w) "description") = Some true) →
  ∃ w' bag,
    saveSettings_callback getAttributes depth newSettings error data w = Some w' ∧
    reflectSavedSettings getAttributes depth newSettings (VRef lu) w
      = (set getAttributes depth bag (with_store h' w) ≫= λ r, Some r.2) ∧
    bag !! "settings" = Some (VRef ls) ∧
    set getAttributes depth bag (with_store h' w)
      = Some (false, updateComputedAttributes getAttributes (with_store h' w)) ∧
    changes w' = changes w ∧
    store w' = h' ∧
    (∀ k v, saved !! k = Some v → prop_of (store w') (VRef ls) k = v) ∧
    this w' = getAttributes h' (this w) ∪ this w ∧
    (∀ k, raw getAttributes k → this w' !! k = this w !! k) ∧
    called_back w' = called_back w ++ [(error, data)].
Proof.
  intros saved h' Hns Herr Hdata Hupd Hne Hset Hname Hdesc.
  destruct (reflectSavedSettings_spec getAttributes depth newSettings (VRef lu) ls w Hns Hset)
    as (h & bag & Hrun & Hw & Hbs & Hbn & Hbd & Hrest).
  apply written_all in Hw as (_ & _ & Hh & _).
  specialize (Hh Hne). change (own_props (store w) (VRef lu)) with saved in *.
  fold h' in Hh. subst h.
  assert (Hsame : set getAttributes depth bag (with_store h' w)
            = Some (false, updateComputedAttributes getAttributes (with_store h' w))).
  { apply set_same. intros k v Hk. cbn [store this with_store].
    destruct (reflected_bag_cases bag _ _ _ k v Hbs Hbn Hbd Hrest Hk)
      as [[-> ->]|[[-> Hv]|[-> Hv]]].
    - rewrite Hset. apply isEqual_refl.
    - destruct (decide (is_Some (saved !! "blogname"))); [| done].
      injection Hv as <-. by apply Hname.
    - destruct (decide (is_Some (saved !! "blogdescription"))); [| done].
      injection Hv as <-. by apply Hdesc. }
  exists (call_back error data (updateComputedAttributes getAttributes (with_store h' w))), bag.
  split.
  { unfold saveSettings_callback, get_prop. rewrite Herr, Hdata, Hupd.
    cbn [mbind option_bind truthy]. rewrite Hrun, Hsame. done. }
  split; [done |]. split; [done |]. split; [done |].
  split; [done |]. split; [done |]. split.
  { intros k v Hk. cbn [store call_back updateComputedAttributes with_this with_store].
    unfold prop_of, own_props, h'. rewrite deref_insert_eq. unfold merged, read. cbn [props].
    by rewrite (lookup_union_Some_l _ _ _ _ Hk). }
  split; [done |]. split; [| done].
  intros k Hk. cbn [this call_back]. by rewrite this_updateComputedAttributes_raw.
Qed.

Lemma called_back_set getAttributes depth bag (w : World) c w' :
  set getAttributes depth bag w = Some (c, w') → called_back w' = called_back w.
Proof.
  unfold set. destruct (foldM _ _ _) as [[o ch]|]; [| done].
  cbn [mbind option_bind]. intros [= <- <-]. by destruct ch.
Qed.

Lemma outgoing_settings_plain (newSettings : val) (h : gmap loc cell) :
  nullish newSettings = false → is_string (prop_of h newSettings "whitelistString") = false →
  outgoing_settings newSettings h = Some (newSettings, h).
Proof.
  intros Hn Hs. unfold outgoing_settings, get_prop. rewrite Hn. cbn [mbind option_bind].
  by destruct (prop_of h newSettings "whitelistString").
Qed.

(** C4. For a site that holds a [settings] object:
    - [saveSettings( { blogdescription: 'New desc' }, cb )] sends that
      object as it is;
    - when the response [{ updated: { blogdescription: 'New desc' } }]
      arrives, the site's [description] becomes ['New desc'], its
      [settings.blogdescription] becomes ['New desc'], and [cb] is called
      once, with [null] and the response;
    - whatever arrives, an error or a response, [cb] is called once with
      it (the two values [set] may compare being primitive, as names and
      descriptions are). *)
Theorem saveSettings_reflects_and_calls_back
    (getAttributes : gmap loc cell → gmap string val → gmap string val) (depth : nat) :
  (∀ (w0 : World) (ln : loc),
     props (deref (store w0) ln) = {["blogdescription" := VStr "New desc"]} →
     saveSettings (VRef ln) w0
       = Some (VRef ln, send (PostSettings (read (this w0) "ID") (VRef ln)) w0)) ∧
  (∀ (w : World) (ln ld lu ls : loc),
     raw getAttributes "description" → raw getAttributes "settings" →
     read (this w) "settings" = VRef ls →
     prop_of (store w) (VRef ln) "blogdescription" = VStr "New desc" →
     prop_of (store w) (VRef ld) "updated" = VRef lu →
     props (deref (store w) lu) = {["blogdescription" := VStr "New desc"]} →
     ∃ w', saveSettings_callback getAttributes depth (VRef ln) VNull (VRef ld) w = Some w' ∧
           read (this w') "description" = VStr "New desc" ∧
           read (this w') "settings" = VRef ls ∧
           prop_of (store w') (read (this w') "settings") "blogdescription"
             = VStr "New desc" ∧
           called_back w' = called_back w ++ [(VNull, VRef ld)]) ∧
  (∀ (w : World) (newSettings error data : val) (ls : loc),
     read (this w) "settings" = VRef ls →
     nullish newSettings = false →
     (truthy error = false → nullish data = false) →
     is_primitive (prop_of (store w) newSettings "blogname") = true →
     is_primitive (prop_of (store w) newSettings "blogdescription") = true →
     ∃ w', saveSettings_callback getAttributes depth newSettings error data w = Some w' ∧
           called_back w' = called_back w ++ [(error, data)]).
Proof.
  split; [| split].
  - intros w0 ln Hln. unfold saveSettings.
    rewrite outgoing_settings_plain; [done | done |].
    unfold prop_of, own_props, read. by rewrite Hln.
  - intros w ln ld lu ls Hrd Hrs Hset Hnew Hupd Hsaved.
    destruct (reflectSavedSettings_spec getAttributes depth (VRef ln) (VRef lu) ls w eq_refl Hset)
      as (h & bag & Hrun & Hw & Hbs & Hbn & Hbd & Hrest).
    cbn [own_props] in Hw, Hbn, Hbd. rewrite Hsaved in Hw, Hbn, Hbd.
    rewrite lookup_singleton_ne in Hbn by done.
    rewrite lookup_singleton_eq in Hbd.
    rewrite decide_False in Hbn by (by intros [? ?]).
    rewrite decide_True in Hbd by (by eexists). rewrite Hnew in Hbd.
    apply written_all in Hw as (_ & Hcell & _ & _).
    destruct (set_spec getAttributes depth bag (with_store h w))
      as (o' & c' & Hrun' & Hout & Hin & _).
    { intros k v Hk. cbn [store this with_store].
      destruct (reflected_bag_cases bag _ _ _ k v Hbs Hbn Hbd Hrest Hk)
        as [[-> ->]|[[-> Hv]|[-> Hv]]]; [| done |].
      - rewrite Hset, isEqual_refl. by eexists.
      - injection Hv as <-. rewrite (isEqual_primitive_l depth h (VStr "New desc") _ eq_refl).
        by eexists. }
    set (w1 := (if c' then emit_change else id)
                 (updateComputedAttributes getAttributes (with_this o' (with_store h w)))).
    fold w1 in Hrun'.
    assert (Hthis : ∀ k, raw getAttributes k → read (this w1) k = read o' k).
    { intros k Hk. unfold read, w1. destruct c'; cbn [this emit_change id];
        by rewrite this_updateComputedAttributes_raw. }
    assert (Hst : store w1 = h) by (unfold w1; by destruct c').
    assert (Hcb : called_back w1 = called_back w) by (unfold w1; by destruct c').
    exists (call_back VNull (VRef ld) w1). split.
    { unfold saveSettings_callback, get_prop. cbn [truthy nullish mbind option_bind].
      rewrite Hupd. cbn [truthy]. rewrite Hrun, Hrun'. done. }
    cbn [this store called_back call_back].
    assert (Hdesc : read o' "description" = VStr "New desc").
    { destruct (Hin _ _ Hbd) as [[He Ho]|(_ & _ & Ho)].
      - cbn [store this with_store] in He, Ho.
        apply isEqual_true_primitive in He; [| by left].
        unfold read in *. by rewrite Ho, <- He.
      - rewrite decide_False in Ho by done. by apply read_Some. }
    assert (Hsett : read o' "settings" = VRef ls).
    { destruct (Hin _ _ Hbs) as [[_ Ho]|(_ & _ & Ho)].
      - cbn [this with_store] in Ho. unfold read in *. by rewrite Ho.
      - rewrite decide_False in Ho by done. by apply read_Some. }
    split; [by rewrite Hthis |]. split; [by rewrite Hthis |]. split.
    { rewrite Hthis, Hsett, Hst by done.
      unfold prop_of, own_props. rewrite Hcell. unfold merged, read. cbn [props].
      by rewrite (lookup_union_Some_l _ _ "blogdescription" (VStr "New desc"))
        by apply lookup_singleton_eq. }
    by rewrite Hcb.
  - intros w newSettings error data ls Hset Hns Hdata Hp1 Hp2.
    unfold saveSettings_callback. destruct (truthy error) eqn:Herr.
    { eexists. split; done. }
    unfold get_prop. rewrite (Hdata eq_refl). cbn [mbind option_bind].
    destruct (truthy (prop_of (store w) data "updated")) eqn:Hupd.
    2: { eexists. split; done. }
    destruct (reflectSavedSettings_spec getAttributes depth newSettings
                (prop_of (store w) data "updated") ls w Hns Hset)
      as (h & bag & Hrun & Hw & Hbs & Hbn & Hbd & Hrest).
    destruct (set_spec getAttributes depth bag (with_store h w))
      as (o' & c' & Hrun' & _).
    { intros k v Hk. cbn [store this with_store].
      destruct (reflected_bag_cases bag _ _ _ k v Hbs Hbn Hbd Hrest Hk)
        as [[-> ->]|[[-> Hv]|[-> Hv]]].
      - rewrite Hset, isEqual_refl. by eexists.
      - destruct (decide (is_Some (_ !! "blogname"))); [| done]. injection Hv as <-.
        rewrite (isEqual_primitive_l depth h _ _ Hp1). by eexists.
      - destruct (decide (is_Some (_ !! "blogdescription"))); [| done]. injection Hv as <-.
        rewrite (isEqual_primitive_l depth h _ _ Hp2). by eexists. }
    rewrite Hrun, Hrun'. eexists. split; [done |]. by destruct c'.
Qed.

Section Fetching.
Variable getAttributes : gmap loc cell → gmap string val → gmap string val.
Variable translate : string → string.
Variable depth : nat.

Lemma fetchSettings_spec siteID (w : World) :
  raw getAttributes "fetchingSettings" →
  ∃ w1, fetchSettings getAttributes depth siteID w = Some w1 ∧
        read (this w1) "fetchingSettings" = VBool true ∧
        (∀ k, k ≠ "fetchingSettings" → raw getAttributes k → this w1 !! k = this w !! k) ∧
        store w1 = store w ∧ notices w1 = notices w ∧
        requests w1 = requests w ++ [GetSettings (or_else (read (this w) "ID") siteID)].
Proof.
  intros Hraw. unfold fetchSettings. rewrite set_singleton.
  rewrite (isEqual_primitive_l depth (store w) (VBool true) _ eq_refl).
  case_bool_decide as Hv; cbn [mbind option_bind snd]; eexists; (split; [done |]).
  - cbn [this send store notices requests]. split; [| split; [| done]].
    + unfold read. rewrite this_updateComputedAttributes_raw by done.
      unfold read in Hv. by rewrite <- Hv.
    + intros k _ Hk. by rewrite this_updateComputedAttributes_raw.
  - cbn [this send emit_change store notices requests]. split; [| split; [| done]].
    + unfold read. rewrite this_updateComputedAttributes_raw by done.
      cbn [this with_this]. rewrite decide_False by done. by rewrite lookup_insert_eq.
    + intros k Hne Hk. rewrite this_updateComputedAttributes_raw by done.
      cbn [this with_this]. rewrite decide_False by done. by rewrite lookup_insert_ne.
Qed.

Lemma stamped_ref ld (w : World) :
  stamped (VRef ld) w
    = Some (<[ld := mkCell (kind (deref (store w) ld))
                      (<["fetchingSettings" := VBool false]>
                         (<["latestSettings" := VNum (clock w)]>
                            (props (deref (store w) ld))))]> (store w)).
Proof.
  unfold stamped. cbn [set_prop mbind option_bind].
  rewrite deref_insert_eq. cbn [kind props]. by rewrite insert_insert_eq.
Qed.

(** On a store without cycles every comparison of [set] returns, given
    enough depth. *)
Lemma comparable_ranked rank h (bag o : gmap string val) :
  ranked rank h → (∀ k v, bag !! k = Some v → rank_of rank v ≤ depth) →
  comparable depth h bag o.
Proof.
  intros Hr Hbag k v Hk. eapply isEqual_returns; [done |]. by eapply Hbag.
Qed.
End Fetching.

(** C5. [fetchSettings] first sets [fetchingSettings] to [true], leaving
    the other attributes that are not computed as they are.  When the
    request then fails with status 403, the callback reports "You are not
    authorized ..." to the notification sink, once, and does nothing else:
    the site, the store and the count of change events are what they were
    when the failure arrived, so [fetchingSettings] is still [true]. *)
Theorem fetchSettings_forbidden_only_notifies
    (getAttributes : gmap loc cell → gmap string val → gmap string val)
    (translate : string → string) (depth : nat)
    (siteID error data : val) (w0 : World) :
  raw getAttributes "fetchingSettings" →
  truthy error = true →
  ∃ w1, fetchSettings getAttributes depth siteID w0 = Some w1 ∧
        read (this w1) "fetchingSettings" = VBool true ∧
        (∀ k, k ≠ "fetchingSettings" → raw getAttributes k →
           this w1 !! k = this w0 !! k) ∧
        notices w1 = notices w0 ∧
        ∀ w : World,
          prop_of (store w) error "statusCode" = VNum 403 →
          ∃ w', fetchSettings_callback getAttributes translate depth error data w = Some w' ∧
                notices w' = notices w ++
                  [mkNotice (translate
                     "You are not authorized to manage settings for this site.") None] ∧
                this w' = this w ∧
                store w' = store w ∧
                changes w' = changes w ∧
                requests w' = requests w ∧
                (read (this w) "fetchingSettings" = VBool true →
                 read (this w') "fetchingSettings" = VBool true).
Proof.
  intros Hraw Herr.
  destruct (fetchSettings_spec getAttributes depth siteID w0 Hraw)
    as (w1 & Hrun & Hflag & Hkeep & _ & Hnot & _).
  exists w1. split; [done |]. split; [done |]. split; [done |]. split; [done |].
  intros w Hcode. eexists. split.
  { unfold fetchSettings_callback. rewrite Herr. unfold settingsErrorHandler.
    rewrite Hcode. done. }
  repeat split; done.
Qed.

(** C8, as the code has it.  When a fetch succeeds with the object [data],
    the callback stamps [data] with [latestSettings], the reading of the
    clock at that moment, and with [fetchingSettings: false], and hands it
    to [set].  Provided each comparison [set] makes returns, the site then
    has [fetchingSettings] equal to [false] and [latestSettings] equal to
    that reading (so later than any time before it), and every field of
    the response that is not a computed attribute is a top-level attribute
    of the site, deeply equal to the value received; attributes the
    response does not mention are left alone, and no object other than
    [data] is written to. *)
Theorem fetchSettings_success_merges
    (getAttributes : gmap loc cell → gmap string val → gmap string val)
    (translate : string → string) (depth : nat)
    (error : val) (ld : loc) (w : World) :
  truthy error = false →
  raw getAttributes "fetchingSettings" → raw getAttributes "latestSettings" →
  ∃ h2,
    stamped (VRef ld) w = Some h2 ∧
    (∀ l, l ≠ ld → h2 !! l = store w !! l) ∧
    (comparable depth h2 (own_props h2 (VRef ld)) (this w) →
     ∃ w',
       fetchSettings_callback getAttributes translate depth error (VRef ld) w = Some w' ∧
       store w' = h2 ∧
       read (this w') "fetchingSettings" = VBool false ∧
       read (this w') "latestSettings" = VNum (clock w) ∧
       (∀ t, (t < clock w)%Z →
          ∃ n, read (this w') "latestSettings" = VNum n ∧ (t < n)%Z) ∧
       (∀ k v, props (deref (store w) ld) !! k = Some v →
          k ≠ "latestSettings" → k ≠ "fetchingSettings" → raw getAttributes k →
          isEqual depth h2 v (read (this w') k) = Some true ∧
          (this w' !! k = this w !! k ∨
           this w' !! k = if decide (v = VUndef) then None else Some v)) ∧
       (∀ k, props (deref (store w) ld) !! k = None →
          k ≠ "latestSettings" → k ≠ "fetchingSettings" → raw getAttributes k →
          this w' !! k = this w !! k)).
Proof.
  intros Herr Hrf Hrl. eexists. split; [apply stamped_ref |].
  set (stamps := <["fetchingSettings" := VBool false]>
                   (<["latestSettings" := VNum (clock w)]> (props (deref (store w) ld)))).
  set (h2 := <[ld := mkCell (kind (deref (store w) ld)) stamps]> (store w)).
  split. { intros l Hl. unfold h2. by rewrite lookup_insert_ne. }
  assert (Hbag : own_props h2 (VRef ld) = stamps).
  { unfold own_props, h2. by rewrite deref_insert_eq. }
  rewrite Hbag. intros Hcmp.
  destruct (set_spec getAttributes depth stamps (with_store h2 w))
    as (o' & c' & Hrun & Hout & Hin & _).
  { intros k v Hk. by apply Hcmp. }
  set (w1 := (if c' then emit_change else id)
               (updateComputedAttributes getAttributes (with_this o' (with_store h2 w)))).
  fold w1 in Hrun.
  assert (Hthis : ∀ k, raw getAttributes k → this w1 !! k = o' !! k).
  { intros k Hk. unfold w1. destruct c'; cbn [this emit_change id];
      by rewrite this_updateComputedAttributes_raw. }
  assert (Hst : store w1 = h2) by (unfold w1; by destruct c').
  cbn [this store with_store] in Hout, Hin.
  assert (Hstored : ∀ k v, stamps !! k = Some v → is_primitive v = true → v ≠ VUndef →
            read o' k = v).
  { intros k v Hk Hp Hv. destruct (Hin k v Hk) as [[He Ho]|(_ & _ & Ho)].
    - apply isEqual_true_primitive in He; [| by left].
      unfold read in *. by rewrite Ho, <- He.
    - rewrite decide_False in Ho by done. by apply read_Some. }
  exists w1. split.
  { unfold fetchSettings_callback. rewrite Herr.
    pose proof (stamped_ref ld w) as Hs. unfold stamped in Hs.
    destruct (set_prop (store w) (VRef ld) "latestSettings" (VNum (clock w))) as [h1|];
      [| done].
    cbn [mbind option_bind] in Hs |- *. rewrite Hs. cbn [mbind option_bind].
    fold stamps. fold h2. rewrite Hbag, Hrun. done. }
  split; [done |].
  assert (Hfs : read (this w1) "fetchingSettings" = VBool false).
  { unfold read. rewrite Hthis by done. apply Hstored; [| done..].
    unfold stamps. by rewrite lookup_insert_eq. }
  assert (Hls : read (this w1) "latestSettings" = VNum (clock w)).
  { unfold read. rewrite Hthis by done. apply Hstored; [| done..].
    unfold stamps. rewrite lookup_insert_ne by done. by rewrite lookup_insert_eq. }
  split; [done |]. split; [done |]. split.
  { intros t Ht. exists (clock w). by split. }
  split.
  - intros k v Hk Hk1 Hk2 Hraw. rewrite Hthis by done.
    assert (Hs : stamps !! k = Some v).
    { unfold stamps. by rewrite !lookup_insert_ne. }
    unfold read. rewrite Hthis by done.
    destruct (Hin k v Hs) as [[He Ho]|(_ & _ & Ho)].
    + split; [| by left]. unfold read in He. by rewrite Ho.
    + split; [| by right]. rewrite Ho. case_decide as Hv.
      * rewrite Hv. apply isEqual_refl.
      * apply isEqual_refl.
  - intros k Hk Hk1 Hk2 Hraw. rewrite Hthis by done. apply Hout.
    unfold stamps. by rewrite !lookup_insert_ne.
Qed.

(** C9, as the code has it.  When [newSettings.whitelistString] is a
    string, the settings sent are a fresh copy of [newSettings] without
    [whitelistString] and with [jetpack_protect_whitelist] a fresh array
    of the pieces of that string between newlines; the other fields are
    those of [newSettings]. *)
Theorem saveSettings_splits_whitelistString (ln : loc) (s : string) (w : World) :
  props (deref (store w) ln) !! "whitelistString" = Some (VStr s) →
  ∃ la lo w',
    saveSettings (VRef ln) w = Some (VRef lo, w') ∧
    requests w' = requests w ++ [PostSettings (read (this w) "ID") (VRef lo)] ∧
    this w' = this w ∧
    store w !! la = None ∧ store w !! lo = None ∧ la ≠ lo ∧
    deref (store w') la = array_of (VStr <$> split_on newline s) ∧
    kind (deref (store w') lo) = Plain ∧
    props (deref (store w') lo) !! "whitelistString" = None ∧
    props (deref (store w') lo) !! "jetpack_protect_whitelist" = Some (VRef la) ∧
    (∀ k, k ≠ "whitelistString" → k ≠ "jetpack_protect_whitelist" →
       props (deref (store w') lo) !! k = props (deref (store w) ln) !! k) ∧
    join_with newline (split_on newline s) = s ∧
    (∀ p, p ∈ split_on newline s → contains newline p = false).
Proof.
  intros Hws.
  assert (Hln : is_Some (store w !! ln)).
  { unfold deref in Hws. destruct (store w !! ln); [by eexists | done]. }
  set (h := store w) in *.
  set (la := fresh (dom h)).
  assert (Hla : h !! la = None).
  { apply not_elem_of_dom. apply is_fresh. }
  assert (Hlan : la ≠ ln). { intros ->. rewrite Hla in Hln. by destruct Hln. }
  set (h1 := <[la := array_of (VStr <$> split_on newline s)]> h).
  set (h2 := <[ln := mkCell (kind (deref h1 ln))
                       (<["jetpack_protect_whitelist" := VRef la]> (props (deref h1 ln)))]> h1).
  set (lo := fresh (dom h2)).
  assert (Hlo : h2 !! lo = None).
  { apply not_elem_of_dom. apply is_fresh. }
  assert (Hlon : lo ≠ ln). { intros Heq. rewrite Heq in Hlo. unfold h2 in Hlo.
    by rewrite lookup_insert_eq in Hlo. }
  assert (Hloa : la ≠ lo). { intros Heq. rewrite <- Heq in Hlo. unfold h2, h1 in Hlo.
    rewrite lookup_insert_ne, lookup_insert_eq in Hlo by done. done. }
  assert (Hd1 : deref h1 ln = deref h ln).
  { unfold h1. by apply deref_insert_ne. }
  exists la, lo. eexists. split.
  { unfold saveSettings, outgoing_settings, get_prop, prop_of. fold h.
    cbn [nullish own_props mbind option_bind].
    rewrite (read_Some _ _ _ Hws). cbn [alloc fst snd set_prop mbind option_bind own_props].
    fold la. fold h1. fold h2. fold lo. done. }
  cbn [requests send with_store store this].
  split; [done |]. split; [done |]. split; [done |]. split.
  { unfold h2, h1 in Hlo. by rewrite !lookup_insert_ne in Hlo by done. }
  split; [done |].
  rewrite !deref_insert_eq. cbn [kind props].
  unfold h2. rewrite deref_insert_eq. cbn [props]. rewrite Hd1.
  split.
  { rewrite deref_insert_ne, deref_insert_ne by done. unfold h1. apply deref_insert_eq. }
  split; [done |]. split; [apply lookup_delete_eq |]. split.
  { rewrite lookup_delete_ne by done. apply lookup_insert_eq. }
  split.
  { intros k Hk1 Hk2. rewrite lookup_delete_ne by done. by rewrite lookup_insert_ne. }
  split; [apply join_split |]. intros p. apply split_on_pieces.
Qed.

(** *** The theorems above, on the fixtures *)

Import SiteFixtures.

Example isEqual_same_contents : isEqual 1 three_objects (VRef 1) (VRef 2) = Some true.
Proof. vm_compute. reflexivity. Qed.

Example isEqual_other_contents : isEqual 1 three_objects (VRef 1) (VRef 3) = Some false.
Proof. vm_compute. reflexivity. Qed.

Example isEqual_object_and_primitive : isEqual 0 three_objects (VRef 1) (VNum 1) = Some false.
Proof. vm_compute. reflexivity. Qed.

Example isEqual_exhausted : isEqual depth two_loops (VRef 1) (VRef 2) = None.
Proof. vm_compute. reflexivity. Qed.

(** [set] does notice a new description in [settings] when it is handed
    another object than the one the site holds. *)
Example set_settings_copy :
  (λ r, (r.1, changes r.2)) <$>
    set titled depth {["settings" := VRef 2]} (deliver 2 settings_copy site7)
  = Some (true, 1).
Proof. vm_compute. reflexivity. Qed.

(** [Site( { ID: 7 } ).fetchSettings()] answered by [{ blogname: 'Foo' }]:
    [blogname] becomes a top-level attribute, not a key of [settings]. *)
Example fetch_on_bare_site :
  (λ w, (read (this w) "blogname", read (this w) "settings",
         read (this w) "fetchingSettings", read (this w) "latestSettings",
         requests w, changes w)) <$> bare7_fetched
  = Some (VStr "Foo", VUndef, VBool false, VNum 1025, [GetSettings (VNum 7)], 2).
Proof. vm_compute. reflexivity. Qed.

(** On a site that holds no [settings] the loop of [reflectSavedSettings]
    throws at its first assignment, and the callback is not reached. *)
Example save_without_settings_throws :
  read (this bare7_saved) "settings" = VUndef ∧
  saveSettings_callback titled depth (VRef 2) VNull (VRef 4) bare7_saved = None.
Proof. vm_compute. split; reflexivity. Qed.

Example split_two_lines : split_on newline two_lines = ["10.0.0.1"; "10.0.0.2"].
Proof. reflexivity. Qed.

Lemma titled_raw k : k ≠ "title" → raw titled k.
Proof.
  intros Hk h o. unfold titled. destruct (o !! "name"); [| done].
  by apply lookup_singleton_ne.
Qed.

Lemma set_same_values_is_noop_witness :
  ∃ w', set titled depth {["ID" := VNum 7]} site7 = Some (false, w') ∧
        changes w' = changes site7 ∧ store w' = store site7.
Proof.
  destruct (proj1 (set_same_values_is_noop titled depth) {["ID" := VNum 7]} site7)
    as (w' & Hrun & Hch & Hst & _).
  { intros k v [<- <-]%lookup_singleton_Some. vm_compute. reflexivity. }
  exists w'. repeat split; assumption.
Defined.

Lemma set_undefined_deletes_witness :
  ∃ w', set titled depth {["description" := VUndef]} site7 = Some (true, w') ∧
        this w' !! "description" = None ∧ changes w' = S (changes site7).
Proof.
  destruct (set_undefined_deletes titled depth "description" (VStr "Old desc") site7)
    as (w' & Hrun & Hgone & Hch & _).
  - by apply titled_raw.
  - vm_compute. reflexivity.
  - discriminate.
  - exists w'. repeat split; assumption.
Defined.

Lemma saveSettings_reflects_and_calls_back_witness :
  ∃ w', saveSettings_callback titled depth (VRef 2) VNull (VRef 4) site7_saved = Some w' ∧
        read (this w') "description" = VStr "New desc" ∧
        prop_of (store w') (read (this w') "settings") "blogdescription" = VStr "New desc" ∧
        called_back w' = [(VNull, VRef 4)].
Proof.
  destruct (proj1 (proj2 (saveSettings_reflects_and_calls_back titled depth))
              site7_saved 2%positive 4%positive 3%positive 1%positive)
    as (w' & Hrun & Hdesc & _ & Hsett & Hcb).
  - by apply titled_raw.
  - by apply titled_raw.
  - vm_compute. reflexivity.
  - vm_compute. reflexivity.
  - vm_compute. reflexivity.
  - vm_compute. reflexivity.
  - exists w'. repeat split; assumption.
Defined.

Lemma fetchSettings_forbidden_only_notifies_witness :
  ∃ w1, fetchSettings titled depth VUndef site7 = Some w1 ∧
        read (this w1) "fetchingSettings" = VBool true ∧
        ∃ w2, fetchSettings_callback titled translate depth (VRef 5) VUndef
                (deliver 5 forbidden w1) = Some w2 ∧
              notices w2 = notices w1 ++
                [mkNotice "You are not authorized to manage settings for this site." None] ∧
              read (this w2) "fetchingSettings" = VBool true.
Proof.
  destruct (fetchSettings_forbidden_only_notifies titled translate depth
              VUndef (VRef 5) VUndef site7) as (w1 & Hrun & Hflag & _ & _ & Hfail).
  - by apply titled_raw.
  - reflexivity.
  - exists w1. split; [assumption |]. split; [assumption |].
    destruct (Hfail (deliver 5 forbidden w1)) as (w2 & Hcb & Hn & _ & _ & _ & _ & Hstill).
    + unfold prop_of, own_props, deliver. cbn [store with_store].
      rewrite deref_insert_eq. reflexivity.
    + exists w2. split; [assumption |]. split; [assumption |]. apply Hstill. assumption.
Defined.

Lemma fetchSettings_success_merges_witness :
  ∃ w', fetchSettings_callback titled translate depth VNull (VRef 6)
          (elapse 25 (deliver 6 fetched site7)) = Some w' ∧
        read (this w') "fetchingSettings" = VBool false ∧
        read (this w') "latestSettings" = VNum 1025.
Proof.
  destruct (fetchSettings_success_merges titled translate depth VNull 6%positive
              (elapse 25 (deliver 6 fetched site7))) as (h2 & Hs & _ & Hmain).
  - reflexivity.
  - by apply titled_raw.
  - by apply titled_raw.
  - rewrite stamped_ref in Hs. injection Hs as <-.
    destruct Hmain as (w' & Hrun & _ & Hfs & Hls & _).
    + unfold comparable. refine (bool_decide_unpack _ _). vm_compute. exact I.
    + exists w'. repeat split; assumption.
Defined.

(** Against C8 as stated: when the response is handled before the clock
    has moved on, [latestSettings] is the very reading of the clock at the
    call, 1000 here, and not a later one. *)
Lemma latestSettings_not_after_call :
  clock site7 = 1000%Z ∧
  (λ w, read (this w) "latestSettings") <$> fetched_at_once = Some (VNum 1000) ∧
  ¬ (clock site7 < 1000)%Z.
Proof.
  split; [reflexivity |]. split; [vm_compute; reflexivity |].
  vm_compute. discriminate.
Qed.

Lemma saveSettings_splits_whitelistString_witness :
  ∃ la lo w',
    saveSettings (VRef 2) (deliver 2 whitelist_string site7) = Some (VRef lo, w') ∧
    props (deref (store w') lo) !! "whitelistString" = None ∧
    props (deref (store w') lo) !! "jetpack_protect_whitelist" = Some (VRef la) ∧
    deref (store w') la = array_of [VStr "10.0.0.1"; VStr "10.0.0.2"].
Proof.
  destruct (saveSettings_splits_whitelistString 2%positive two_lines
              (deliver 2 whitelist_string site7))
    as (la & lo & w' & Hrun & _ & _ & _ & _ & _ & Harr & _ & Hws & Hjpw & _).
  - vm_compute. reflexivity.
  - exists la, lo, w'. repeat split; assumption.
Defined.

(** Against C9 as stated: when [whitelistString] is not a string the
    settings are sent as they are, [whitelistString] included, and no
    [jetpack_protect_whitelist] is added. *)
Lemma whitelist_number_sent_as_is :
  prop_of (store site7_whitelist_number) (VRef 2) "whitelistString" = VNum 42 ∧
  saveSettings (VRef 2) site7_whitelist_number
    = Some (VRef 2, send (PostSettings (VNum 7) (VRef 2)) site7_whitelist_number) ∧
  prop_of (store site7_whitelist_number) (VRef 2) "jetpack_protect_whitelist" = VUndef.
Proof. vm_compute. repeat split; reflexivity. Qed.

Lemma saveSettings_in_place_update_is_silent_witness :
  ∃ w', saveSettings_callback titled depth (VRef 2) VNull (VRef 4) site7_lang_saved
          = Some w' ∧
        changes w' = changes site7_lang_saved ∧
        prop_of (store w') (VRef 1) "lang_id" = VNum 5 ∧
        prop_of (store site7_lang_saved) (VRef 1) "lang_id" = VUndef.
Proof.
  destruct (saveSettings_in_place_update_is_silent titled depth (VRef 2) VNull (VRef 4)
              3%positive 1%positive site7_lang_saved)
    as (w' & bag & Hrun & _ & _ & _ & Hch & _ & Hw & _).
  - reflexivity.
  - reflexivity.
  - reflexivity.
  - vm_compute. reflexivity.
  - vm_compute. discriminate.
  - vm_compute. reflexivity.
  - intros [v Hv]. vm_compute in Hv. discriminate.
  - intros [v Hv]. vm_compute in Hv. discriminate.
  - exists w'. split; [assumption |]. split; [assumption |].
    split; [| vm_compute; reflexivity]. apply Hw. vm_compute. reflexivity.
Defined.

End SiteFacts.
